(** * League entries collector: a shallow embedding of [league_entries_csv.py]

    The script validates four filters (queue, tier, divisions, page mode),
    walks a paginated HTTP resource and writes the collected entries to a CSV
    file.  Python values are embedded as follows.

    - [str]: [string]; every [ascii] is one code point below 256.
    - [int] (the page counter): [nat], printed in decimal by [str_int].
    - [list]: [list]; [dict]: an association list in insertion order.
    - the decoded JSON body of a response: [json].
    - exceptions: [res], carrying the exception class.
    - [print], [requests.get] and [DataFrame.to_csv]: an [event] appended to
      the trace threaded through the monad [M].
    - the [while] loop: a fuelled iteration of its body, one unit of fuel per
      execution of the body. *)

From Stdlib Require Import String Ascii List Arith Bool Lia DecimalString.
Import ListNotations.
Open Scope string_scope.
Set Warnings "-register-all,-notation-for-abbreviation".

(** ** Python primitives *)

Module Py.

(** Characters that cannot be written inside a literal. *)
Definition dq : string := String (ascii_of_nat 34) EmptyString.
Definition nl : string := String (ascii_of_nat 10) EmptyString.
Definition tab : string := String (ascii_of_nat 9) EmptyString.
Definition bsl : string := String (ascii_of_nat 92) EmptyString.

(** [x in l] for a list of strings. *)
Definition py_in (x : string) (l : list string) : bool :=
  existsb (String.eqb x) l.

(** [l[a:b]] for in-range, non-negative bounds. *)
Definition slice {A : Type} (a b : nat) (l : list A) : list A :=
  firstn (b - a) (skipn a l).

(** [l.index(x)]: position of the first occurrence; [None] stands for the
    [ValueError] raised when [x] does not occur. *)
Fixpoint list_index (x : string) (l : list string) : option nat :=
  match l with
  | [] => None
  | y :: l' =>
      if String.eqb y x then Some 0
      else option_map S (list_index x l')
  end.

(** [l[-1]]; [None] stands for the [IndexError] on an empty list. *)
Fixpoint last_item (l : list string) : option string :=
  match l with
  | [] => None
  | [x] => Some x
  | _ :: l' => last_item l'
  end.

(** [str(n)] for a non-negative integer. *)
Definition str_int (n : nat) : string :=
  NilEmpty.string_of_uint (Nat.to_uint n).

(** [s.lower()] on code points below 256: the ASCII capitals and the
    Latin-1 capitals 0xC0..0xDE (0xD7, the multiplication sign, apart). *)
Definition lower_char (c : ascii) : ascii :=
  let n := nat_of_ascii c in
  if (((65 <=? n) && (n <=? 90))
      || ((192 <=? n) && (n <=? 222) && negb (n =? 215)))%nat
  then ascii_of_nat (n + 32) else c.

Fixpoint lower (s : string) : string :=
  match s with
  | EmptyString => EmptyString
  | String c s' => String (lower_char c) (lower s')
  end.

(** [s.split(',')]: never the empty list. *)
Fixpoint split_comma (s : string) : list string :=
  match s with
  | EmptyString => [EmptyString]
  | String c s' =>
      if Ascii.eqb c ","%char then EmptyString :: split_comma s'
      else match split_comma s' with
           | h :: t => String c h :: t
           | [] => [String c EmptyString]
           end
  end.

(** *** [repr] of a string and [str] of a list of strings *)

Definition hex_digit (n : nat) : ascii :=
  nth n ["0"; "1"; "2"; "3"; "4"; "5"; "6"; "7"; "8"; "9";
         "a"; "b"; "c"; "d"; "e"; "f"]%char "0"%char.

Definition hex2 (n : nat) : string :=
  String (hex_digit (n / 16)) (String (hex_digit (n mod 16)) EmptyString).

Fixpoint has_char (c : ascii) (s : string) : bool :=
  match s with
  | EmptyString => false
  | String d s' => Ascii.eqb c d || has_char c s'
  end.

(** The quote [repr] encloses the string in: a double quote when the string
    holds a single quote and no double quote, a single quote otherwise. *)
Definition repr_quote (s : string) : ascii :=
  if has_char (ascii_of_nat 39) s && negb (has_char (ascii_of_nat 34) s)
  then ascii_of_nat 34 else ascii_of_nat 39.

(** One code point inside [repr]: the quote and the backslash are escaped,
    tab, newline and carriage return have their letters, and what is not
    printable (controls, DEL, 0x80..0xA0, the soft hyphen 0xAD) is written
    in hexadecimal. *)
Definition repr_char (quote c : ascii) : string :=
  let n := nat_of_ascii c in
  if Ascii.eqb c quote || (n =? 92)%nat then bsl ++ String c EmptyString
  else if (n =? 9)%nat then bsl ++ "t"
  else if (n =? 10)%nat then bsl ++ "n"
  else if (n =? 13)%nat then bsl ++ "r"
  else if ((n <? 32) || (n =? 127))%nat then bsl ++ "x" ++ hex2 n
  else if (n <? 127)%nat then String c EmptyString
  else if ((n <? 161) || (n =? 173))%nat then bsl ++ "x" ++ hex2 n
  else String c EmptyString.

Fixpoint repr_body (quote : ascii) (s : string) : string :=
  match s with
  | EmptyString => EmptyString
  | String c s' => repr_char quote c ++ repr_body quote s'
  end.

Definition repr (s : string) : string :=
  let q := repr_quote s in
  String q (repr_body q s) ++ String q EmptyString.

(** [sep.join(l)]. *)
Fixpoint join (sep : string) (l : list string) : string :=
  match l with
  | [] => EmptyString
  | [x] => x
  | x :: l' => x ++ sep ++ join sep l'
  end.

(** [str(l)] for a list of strings. *)
Definition str_list (l : list string) : string :=
  "[" ++ join ", " (map repr l) ++ "]".

(** *** Exceptions *)

Inductive exn : Type :=
| IndexError
| KeyError
| TypeError
| ValueError
| RequestException.

Inductive res (A : Type) : Type :=
| Ok (a : A)
| Raise (e : exn).
Arguments Ok {A} a.
Arguments Raise {A} e.

(** *** Decoded JSON *)

Inductive json : Type :=
| JNull
| JBool (b : bool)
| JNum (literal : string)
| JStr (s : string)
| JArr (items : list json)
| JObj (fields : list (string * json)).

(** [len(v)]. *)
Definition py_len (v : json) : res nat :=
  match v with
  | JStr s => Ok (String.length s)
  | JArr items => Ok (List.length items)
  | JObj fields => Ok (List.length fields)
  | JNull | JBool _ | JNum _ => Raise TypeError
  end.

Fixpoint chars (s : string) : list json :=
  match s with
  | EmptyString => []
  | String c s' => JStr (String c EmptyString) :: chars s'
  end.

(** What [for x in v] ranges over: the items of a list, the keys of a
    dict, the characters of a string. *)
Definition py_iter (v : json) : res (list json) :=
  match v with
  | JStr s => Ok (chars s)
  | JArr items => Ok items
  | JObj fields => Ok (map (fun kv => JStr (fst kv)) fields)
  | JNull | JBool _ | JNum _ => Raise TypeError
  end.

Fixpoint assoc (key : string) (fields : list (string * json)) : option json :=
  match fields with
  | [] => None
  | (k, v) :: fields' => if String.eqb k key then Some v else assoc key fields'
  end.

(** [v[key]] for a string key. *)
Definition getitem_key (v : json) (key : string) : res json :=
  match v with
  | JObj fields =>
      match assoc key fields with
      | Some x => Ok x
      | None => Raise KeyError
      end
  | _ => Raise TypeError
  end.

End Py.
Import Py.

(** ** Module constants *)

Definition REGIONS : list string :=
  ["br1"; "eun1"; "euw1"; "jp1"; "kr"; "la1"; "la2"; "na1"; "oc1"; "ph2";
   "ru"; "sg2"; "th2"; "tr1"; "tw2"; "vn2"].

Definition QUEUES : list string :=
  ["RANKED_SOLO_5x5"; "RANKED_FLEX_SR"; "RANKED_FLEX_TT"].

Definition TIERS : list string :=
  ["IRON"; "BRONZE"; "SILVER"; "GOLD"; "PLATINUM"; "EMERALD"; "DIAMOND";
   "MASTER"; "GRANDMASTER"; "CHALLENGER"].

Definition DIVISIONS : list string := ["I"; "II"; "III"; "IV"].

(** [tier in TIERS[TIERS.index('MASTER'):TIERS.index('CHALLENGER') + 1]].
    Both literals occur in [TIERS], so neither [index] raises. *)
Definition is_special_tier (tier : string) : bool :=
  match list_index "MASTER" TIERS, list_index "CHALLENGER" TIERS with
  | Some lo, Some hi => py_in tier (slice lo (hi + 1) TIERS)
  | _, _ => false
  end.

(** ** Argument checks of [get_league_entries_as_csv] *)

(** The divisions named in the error: those not in [DIVISIONS], in order. *)
Definition invalid_divs (divisions : list string) : list string :=
  filter (fun division => negb (py_in division DIVISIONS)) divisions.

(** The text appended for a queue outside [QUEUES] (line 62). *)
Definition queue_error (queue : string) : string :=
  "Invalid queue " ++ dq ++ queue ++ dq ++ ". Options: " ++ str_list QUEUES
    ++ nl.

Definition check_queue (queue err : string) : string :=
  if negb (py_in queue QUEUES) then err ++ queue_error queue else err.

(** The text appended for a tier outside [TIERS] (line 65). *)
Definition tier_error (tier : string) : string :=
  "Invalid tier " ++ dq ++ tier ++ dq ++ ". Options: " ++ str_list TIERS ++ nl.

Definition check_tier (tier err : string) : string :=
  if negb (py_in tier TIERS) then err ++ tier_error tier else err.

(** Line 71. *)
Definition no_divisions_error : string :=
  "No divisions specified. Options: " ++ str_list DIVISIONS ++ nl.

(** Lines 67 to 81: skipped for a tier without divisions. *)
Definition check_divisions (tier : string) (divisions : list string)
  (err : string) : string :=
  if negb (is_special_tier tier) then
    if (List.length divisions =? 0)%nat then err ++ no_divisions_error
    else
      let bad := invalid_divs divisions in
      if (0 <? List.length bad)%nat then
        let err := err ++ "Invalid division" in
        let err := if (1 <? List.length bad)%nat then err ++ "s" else err in
        let err := err ++ (": " ++ dq ++ str_list bad ++ dq ++ ". Options: "
                             ++ str_list DIVISIONS ++ nl) in
        err ++ ("Separate multiple divisions by comma. Example: " ++ dq
                  ++ "I, IV" ++ dq ++ " will return " ++ dq ++ "I" ++ dq
                  ++ " and " ++ dq ++ "IV" ++ dq ++ " only." ++ nl)
      else err
  else err.

(** Lines 83 and 84. *)
Definition get_all_error : string :=
  ("Invalid option for " ++ dq ++ "get all" ++ dq
     ++ "(returns all pages of results if " ++ dq ++ "True" ++ dq
     ++ ", or only first if " ++ dq ++ "False" ++ dq ++ ").")
  ++ ("Options: " ++ dq ++ "True" ++ dq ++ " or " ++ dq ++ "False" ++ dq ++ ".").

Definition check_get_all (get_all err : string) : string :=
  if negb (String.eqb get_all "True") && negb (String.eqb get_all "False")
  then err ++ get_all_error
  else err.

(** The value of [err] when the checks are over (lines 59 to 84). *)
Definition validate (queue tier : string) (divisions : list string)
  (get_all : string) : string :=
  let err := EmptyString in
  let err := check_queue queue err in
  let err := check_tier tier err in
  let err := check_divisions tier divisions err in
  check_get_all get_all err.

(** ** Effects *)

(** What the run does to the world, in the order it does it. *)
Inductive event : Type :=
| EPrint (line : string)
| EGet (url : string)
| EToCsv (filename : string) (rows : list json).

(** A computation appends events to the trace and returns or raises. *)
Definition M (A : Type) : Type := list event -> list event * res A.

Definition ret {A : Type} (a : A) : M A := fun tr => (tr, Ok a).

Definition bind {A B : Type} (m : M A) (k : A -> M B) : M B :=
  fun tr =>
    match m tr with
    | (tr', Ok a) => k a tr'
    | (tr', Raise e) => (tr', Raise e)
    end.

Definition emit (e : event) : M unit := fun tr => ((tr ++ [e])%list, Ok tt).

Definition lift {A : Type} (r : res A) : M A := fun tr => (tr, r).

Definition lift_opt {A : Type} (e : exn) (o : option A) : M A :=
  fun tr => (tr, match o with Some a => Ok a | None => Raise e end).

Notation "x <- m ;; k" := (bind m (fun x => k))
  (at level 61, m at next level, right associativity).
Notation "m ;;; k" := (bind m (fun _ => k))
  (at level 61, right associativity).

(** [print(s)]. *)
Definition print (s : string) : M unit := emit (EPrint s).

(** How a run ends. [OutOfFuel] is the model's own: the loop was still going
    when the fuel ran out. *)
Inductive exit_status : Type :=
| Normal
| Uncaught (e : exn)
| OutOfFuel.

Record outcome : Type := { events : list event; exit : exit_status }.

(** The URLs requested, in order. *)
Fixpoint fetched (tr : list event) : list string :=
  match tr with
  | [] => []
  | EGet url :: tr' => url :: fetched tr'
  | _ :: tr' => fetched tr'
  end.

Definition fetch_count (tr : list event) : nat := List.length (fetched tr).

(** The rows of the files written, in order. *)
Fixpoint written (tr : list event) : list (string * list json) :=
  match tr with
  | [] => []
  | EToCsv filename rows :: tr' => (filename, rows) :: written tr'
  | _ :: tr' => written tr'
  end.

(** ** The collection routine *)

(** The local variables the loop reads and writes. [result] holds the
    responses appended so far. The variable [more_divisions] of the source
    is assigned once and never read, and is left out. *)
Record locals : Type := {
  more_results : bool;
  page : nat;
  current_division : string;
  result : list json
}.

Inductive ctl : Type :=
| Next
| Break.

Section Collector.

(** The environment of a run: the key read from [api_key.txt] when the
    module is loaded, the clock reading already formatted by
    [strftime], and the remote service, a function of the URL that
    answers with the decoded body or raises. *)
Variable api_key : string.
Variable now : string.
Variable http_get : string -> res json.

Section Loop.

Variables region queue tier : string.
Variable divisions : list string.
Variable get_all : string.

(** Lines 102 to 108. *)
Definition request_url (current_division : string) (page : nat) : string :=
  (if is_special_tier tier
   then "https://" ++ region ++ ".api.riotgames.com/lol/league/v4/"
          ++ lower tier ++ "leagues/by-queue/" ++ queue
   else "https://" ++ region ++ ".api.riotgames.com/lol/league/v4/entries/"
          ++ queue ++ "/" ++ tier ++ "/" ++ current_division ++ "/")
  ++ "?page=" ++ str_int page ++ "&api_key=" ++ api_key.

(** The progress line of lines 110 and 111. *)
Definition progress_line (current_division : string) (page : nat) : string :=
  "Getting entries for " ++ tier ++ " " ++ current_division ++ " (" ++ queue
    ++ "), Page: " ++ str_int page ++ "...".

(** [divisions[divisions.index(current_division) + 1]]. *)
Definition next_division (current_division : string) : M string :=
  i <- lift_opt ValueError (list_index current_division divisions) ;;
  lift_opt IndexError (nth_error divisions (i + 1)).

(** One execution of the body of [while more_results] (lines 101 to 143). *)
Definition loop_body (st : locals) : M (ctl * locals) :=
  let url := request_url (current_division st) (page st) in
  print (progress_line (current_division st) (page st)) ;;;
  emit (EGet url) ;;;
  resp <- lift (http_get url) ;;
  n <- lift (py_len resp) ;;
  if (0 <? n)%nat then
    let st := {| more_results := more_results st; page := page st;
                 current_division := current_division st;
                 result := (result st ++ [resp])%list |} in
    if is_special_tier tier then ret (Break, st)
    else if String.eqb get_all "True" then
      ret (Next, {| more_results := more_results st; page := page st + 1;
                    current_division := current_division st;
                    result := result st |})
    else if String.eqb get_all "False" && (List.length divisions <=? 1)%nat
    then ret (Break, st)
    else if String.eqb get_all "False" && (1 <? List.length divisions)%nat then
      final <- lift_opt IndexError (last_item divisions) ;;
      if negb (String.eqb (current_division st) final) then
        d <- next_division (current_division st) ;;
        ret (Next, {| more_results := more_results st; page := page st;
                      current_division := d; result := result st |})
      else ret (Break, st)
    else ret (Break, st)
  else
    if is_special_tier tier then
      print "and is special tier" ;;;
      ret (Next, {| more_results := false; page := page st;
                    current_division := current_division st;
                    result := result st |})
    else
      final <- lift_opt IndexError (last_item divisions) ;;
      if String.eqb (current_division st) final then
        ret (Next, {| more_results := false; page := page st;
                      current_division := current_division st;
                      result := result st |})
      else
        d <- next_division (current_division st) ;;
        ret (Next, {| more_results := more_results st; page := 1;
                      current_division := d; result := result st |}).

(** The loop of line 100: [None] when the fuel runs out before the loop is
    left. *)
Fixpoint while_more_results (fuel : nat) (st : locals) (tr : list event)
  : list event * option (res locals) :=
  if negb (more_results st) then (tr, Some (Ok st))
  else
    match fuel with
    | 0 => (tr, None)
    | S fuel' =>
        match loop_body st tr with
        | (tr', Ok (Next, st')) => while_more_results fuel' st' tr'
        | (tr', Ok (Break, st')) => (tr', Some (Ok st'))
        | (tr', Raise e) => (tr', Some (Raise e))
        end
    end.

(** Lines 88 to 96. *)
Definition initial_locals : locals :=
  {| more_results := true; page := 1;
     current_division := match divisions with
                         | [] => EmptyString
                         | d :: _ => d
                         end;
     result := [] |}.

(** Lines 146 to 153. A hyphen follows every division that differs from
    the last one. *)
Definition filename_divisions : string :=
  if (1 <? List.length divisions)%nat then
    match last_item divisions with
    | Some final =>
        fold_left
          (fun acc division =>
             let acc := acc ++ division in
             if negb (String.eqb division final) then acc ++ "-" else acc)
          divisions EmptyString
    | None => EmptyString
    end
  else "TIER".

(** Lines 156 to 163. *)
Definition filename_pages : string :=
  if is_special_tier tier then "ALL"
  else if String.eqb get_all "True" then "PAGES-ALL"
  else if String.eqb get_all "False" then "PAGE-1"
  else "PAGES-UNSPECIFIED".

(** Lines 166 and 167. *)
Definition filename : string :=
  "league_data_" ++ tier ++ "_" ++ filename_divisions ++ "_"
    ++ filename_pages ++ "_" ++ now ++ ".csv".

(** [for page in result: for entry in page: ...] (lines 176 to 180): the
    entries that become rows, in order. *)
Fixpoint rows_of_pages (pages : list json) : res (list json) :=
  match pages with
  | [] => Ok []
  | p :: pages' =>
      match py_iter p with
      | Ok entries =>
          match rows_of_pages pages' with
          | Ok rows => Ok (entries ++ rows)%list
          | Raise e => Raise e
          end
      | Raise e => Raise e
      end
  end.

(** Lines 171 to 180: the rows of the data frame. *)
Definition rows_of_result (pages : list json) : M (list json) :=
  if is_special_tier tier then
    first <- lift_opt IndexError (nth_error pages 0) ;;
    entries <- lift (getitem_key first "entries") ;;
    lift (py_iter entries)
  else lift (rows_of_pages pages).

(** Lines 145 to 183: what follows the loop. *)
Definition write_csv (st : locals) : M unit :=
  rows <- rows_of_result (result st) ;;
  emit (EToCsv filename rows) ;;;
  print (filename ++ " successfully generated.").

Definition finish (tr : list event) (r : res unit) : outcome :=
  {| events := tr;
     exit := match r with Ok _ => Normal | Raise e => Uncaught e end |}.

(** Line 185. *)
Definition case_note : string :=
  nl ++ "Note: parameter arguments are CASE SENSITIVE.".

(** The function [get_league_entries_as_csv]. *)
Definition get_league_entries_as_csv (fuel : nat) : outcome :=
  let err := validate queue tier divisions get_all in
  if String.eqb err EmptyString then
    match while_more_results fuel initial_locals [] with
    | (tr, None) => {| events := tr; exit := OutOfFuel |}
    | (tr, Some (Raise e)) => {| events := tr; exit := Uncaught e |}
    | (tr, Some (Ok st)) =>
        let (tr', r) := write_csv st tr in finish tr' r
    end
  else
    let err := err ++ case_note in
    let (tr, r) := print err [] in finish tr r.

End Loop.

(** The usage text of lines 199 to 209. *)
Definition usage (args : list string) : M unit :=
  print "Incorrect arguments. Format: <region> <queue> <tier> <divisions> <get all>" ;;;
  print ("Arguments provided: " ++ str_list args) ;;;
  print (tab ++ "Options: ") ;;;
  print (tab ++ "Regions: " ++ str_list REGIONS) ;;;
  print (tab ++ "Queues: " ++ str_list QUEUES) ;;;
  print (tab ++ "Tiers: " ++ str_list TIERS) ;;;
  print (tab ++ "Divisions: " ++ str_list DIVISIONS) ;;;
  print (tab ++ "(Divisions must be provided if Tier is NOT " ++ dq ++ "MASTER"
           ++ dq ++ " or " ++ dq ++ "GRANDMASTER" ++ dq ++ " or " ++ dq
           ++ "CHALLENGER" ++ dq ++ "."
           ++ "Otherwise, do not provide divisions argument.)") ;;;
  print (tab ++ "Get All: " ++ dq ++ "True" ++ dq ++ " or " ++ dq ++ "False"
           ++ dq) ;;;
  print (tab ++ "(IGNORE " ++ dq ++ "Get all" ++ dq ++ " argument if Tier is "
           ++ dq ++ "MASTER" ++ dq ++ " or " ++ dq ++ "GRANDMASTER" ++ dq
           ++ " or " ++ dq ++ "CHALLENGER" ++ dq) ;;;
  print (tab ++ "Example A: python league_entries.py " ++ dq ++ "oc1" ++ dq
           ++ " " ++ dq ++ "RANKED_SOLO_5x5" ++ dq ++ " " ++ dq ++ "SILVER"
           ++ dq ++ " " ++ dq ++ "I,II,III,IV" ++ dq ++ " " ++ dq ++ "True"
           ++ dq) ;;;
  print (tab ++ "Example B: python league_entries.py " ++ dq ++ "oc1" ++ dq
           ++ " " ++ dq ++ "RANKED_SOLO_5x5" ++ dq ++ " " ++ dq
           ++ "CHALLENGER" ++ dq).

(** The script body under [if __name__ == "__main__"], with [args] the
    value of [sys.argv]. *)
Definition main (fuel : nat) (args : list string) : outcome :=
  let arg i := nth i args EmptyString in
  if (List.length args =? 4)%nat && is_special_tier (arg 3) then
    get_league_entries_as_csv (arg 1) (arg 2) (arg 3) [] "True" fuel
  else if (List.length args =? 6)%nat && negb (is_special_tier (arg 3)) then
    get_league_entries_as_csv (arg 1) (arg 2) (arg 3) (split_comma (arg 4))
      (arg 5) fuel
  else let (tr, r) := usage args [] in finish tr r.

End Collector.


(** ** Notions the properties are stated with *)

(** [needle] occurs in [hay]. *)
Definition occurs (needle hay : string) : Prop :=
  exists pre post, hay = pre ++ needle ++ post.

(** Page [p] of division [d] is empty: the service answers the request with
    a body of length 0. *)
Definition empty_page (api_key : string) (http_get : string -> res json)
  (region queue tier d : string) (p : nat) : Prop :=
  exists resp,
    http_get (request_url api_key region queue tier d p) = Ok resp
    /\ py_len resp = Ok 0.

(** The request for page [p] of division [d] is answered with a body that
    has a length: neither the request nor [len] raises. *)
Definition answers (api_key : string) (http_get : string -> res json)
  (region queue tier d : string) (p : nat) : Prop :=
  exists resp n,
    http_get (request_url api_key region queue tier d p) = Ok resp
    /\ py_len resp = Ok n.

(** The loop started from [st] is left (by its test, by [break] or by an
    exception) once it is given enough fuel. *)
Definition loop_halts (api_key : string) (http_get : string -> res json)
  (region queue tier : string) (divisions : list string) (get_all : string)
  (st : locals) (tr : list event) : Prop :=
  exists fuel,
    snd (while_more_results api_key http_get region queue tier divisions
           get_all fuel st tr) <> None.

(** The request [u] fails with [e]: the request itself raises, or [len]
    of the body does. *)
Definition fails_with (http_get : string -> res json) (u : string)
  (e : exn) : Prop :=
  http_get u = Raise e
  \/ exists resp, http_get u = Ok resp /\ py_len resp = Raise e.

(** Page [p] of division [d] has entries: the request is answered with a
    body of positive length. *)
Definition full_page (api_key : string) (http_get : string -> res json)
  (region queue tier d : string) (p : nat) : Prop :=
  exists resp n,
    http_get (request_url api_key region queue tier d p) = Ok resp
    /\ py_len resp = Ok (S n).

(** The bodies the loop keeps out of the requests [urls]: those of positive
    length, in the order of the requests. *)
Definition kept_bodies (http_get : string -> res json) (urls : list string)
  : list json :=
  flat_map
    (fun u =>
       match http_get u with
       | Ok resp =>
           match py_len resp with
           | Ok (S _) => [resp]
           | _ => []
           end
       | Raise _ => []
       end)
    urls.

(** The requests for pages 1 to [n] of division [d]. *)
Definition page_urls (api_key region queue tier d : string) (n : nat)
  : list string :=
  map (request_url api_key region queue tier d) (seq 1 n).

(** ** Stub services of the worked examples *)

Definition entry (name : string) : json :=
  JObj [("summonerName", JStr name)].

(** One non-empty record for every request, whatever the page. *)
Definition one_record_stub (url : string) : res json :=
  Ok (JArr [entry url]).

(** Division I of GOLD: two entries on page 1, one on page 2, nothing
    further. *)
Definition gold_I_url (p : nat) : string :=
  request_url "KEY" "oc1" "RANKED_SOLO_5x5" "GOLD" "I" p.

Definition two_pages_stub (url : string) : res json :=
  if String.eqb url (gold_I_url 1) then Ok (JArr [entry "a"; entry "b"])
  else if String.eqb url (gold_I_url 2) then Ok (JArr [entry "c"])
  else Ok (JArr []).

(** A league object whose [entries] are a, b and c. *)
Definition league_stub (url : string) : res json :=
  Ok (JObj [("entries", JArr [entry "a"; entry "b"; entry "c"])]).

(** An empty body for every request. *)
Definition empty_stub (url : string) : res json := Ok (JObj []).

(** A body of positive length for every request: the error object the
    service sends when it turns a key away. *)
Definition forbidden_stub (url : string) : res json :=
  Ok (JObj [("status", JObj [("message", JStr "Forbidden");
                             ("status_code", JNum "403")])]).

(** A service that cannot be reached. *)
Definition down_stub (url : string) : res json := Raise RequestException.

(** ** Tactics *)

(** Rewrites with every equation of the context whose left-hand side
    occurs in the goal. *)
Ltac use_equations :=
  repeat match goal with
    | H : ?x = _ |- context [?x] => rewrite H
    end.

(** Runs the loop body symbolically, as far as the equations of the
    context on the response, its length and the divisions determine it. *)
Ltac body_steps :=
  unfold loop_body, next_division, bind, print, emit, lift, lift_opt, ret;
  cbv zeta;
  repeat (progress (use_equations; cbn beta iota;
                    cbn [andb negb String.eqb Ascii.eqb Bool.eqb
                           more_results page current_division result];
                    repeat match goal with
                      | |- context [(0 <? S ?n)%nat] =>
                          change (0 <? S n)%nat with true
                      | |- context [(0 <? 0)%nat] =>
                          change (0 <? 0)%nat with false
                      end;
                    rewrite <- ?app_assoc; cbn [app])).

(** ** Strings *)

Lemma append_nil_r (s : string) : s ++ EmptyString = s.
Proof. induction s as [|c s IH]; simpl; [reflexivity | now rewrite IH]. Qed.

Lemma append_assoc (a b c : string) : (a ++ b) ++ c = a ++ (b ++ c).
Proof. induction a as [|x a IH]; simpl; [reflexivity | now rewrite IH]. Qed.

Lemma append_eq_nil (a b : string) :
  a ++ b = EmptyString -> a = EmptyString /\ b = EmptyString.
Proof. destruct a; simpl; [auto | discriminate]. Qed.

Lemma occurs_refl (s : string) : occurs s s.
Proof. exists EmptyString, EmptyString. simpl. now rewrite append_nil_r. Qed.

Lemma occurs_app_l (n a b : string) : occurs n a -> occurs n (a ++ b).
Proof.
  intros (pre & post & ->). exists pre, (post ++ b).
  now rewrite !append_assoc.
Qed.

Lemma occurs_app_r (n a b : string) : occurs n b -> occurs n (a ++ b).
Proof.
  intros (pre & post & ->). exists (a ++ pre), post.
  now rewrite !append_assoc.
Qed.

Create HintDb occurs.
#[local] Hint Resolve occurs_refl occurs_app_l occurs_app_r : occurs.

Lemma occurs_join (sep x : string) (l : list string) :
  In x l -> occurs x (join sep l).
Proof.
  induction l as [|y l IH]; [contradiction |].
  intros [-> | Hin].
  - destruct l; simpl; auto with occurs.
  - destruct l as [|z l]; [contradiction |].
    change (join sep (y :: z :: l)) with (y ++ sep ++ join sep (z :: l)).
    auto with occurs.
Qed.

Lemma occurs_str_list (x : string) (l : list string) :
  In x l -> occurs (repr x) (str_list l).
Proof.
  intros Hin. unfold str_list.
  apply occurs_app_r, occurs_app_l, occurs_join, in_map, Hin.
Qed.

(** ** Membership and the special tiers *)

Lemma py_in_true (x : string) (l : list string) : py_in x l = true <-> In x l.
Proof.
  unfold py_in. rewrite existsb_exists. split.
  - intros (y & Hy & E). apply String.eqb_eq in E. now subst.
  - intros H. exists x. split; [assumption | apply String.eqb_refl].
Qed.

Lemma is_special_tier_iff (tier : string) :
  is_special_tier tier = true
  <-> tier = "MASTER" \/ tier = "GRANDMASTER" \/ tier = "CHALLENGER".
Proof.
  change (is_special_tier tier)
    with (py_in tier ["MASTER"; "GRANDMASTER"; "CHALLENGER"]).
  rewrite py_in_true. simpl. intuition congruence.
Qed.

Lemma special_tier_in_TIERS (tier : string) :
  is_special_tier tier = true -> py_in tier TIERS = true.
Proof.
  rewrite is_special_tier_iff. intros [-> | [-> | ->]]; reflexivity.
Qed.

(** ** The argument checks *)

Lemma check_queue_app (queue err : string) :
  check_queue queue err = err ++ check_queue queue EmptyString.
Proof.
  unfold check_queue. destruct (py_in queue QUEUES); simpl;
    [now rewrite append_nil_r | reflexivity].
Qed.

Lemma check_tier_app (tier err : string) :
  check_tier tier err = err ++ check_tier tier EmptyString.
Proof.
  unfold check_tier. destruct (py_in tier TIERS); simpl;
    [now rewrite append_nil_r | reflexivity].
Qed.

Lemma check_divisions_app (tier : string) (divisions : list string)
  (err : string) :
  check_divisions tier divisions err
  = err ++ check_divisions tier divisions EmptyString.
Proof.
  unfold check_divisions.
  destruct (is_special_tier tier); cbn [negb];
    [now rewrite append_nil_r |].
  destruct (List.length divisions =? 0)%nat; [reflexivity |].
  destruct (0 <? List.length (invalid_divs divisions))%nat;
    [| now rewrite append_nil_r].
  cbv zeta.
  set (a := ": " ++ _). set (b := "Separate multiple divisions by comma. Example: " ++ _).
  change (EmptyString ++ "Invalid division") with "Invalid division".
  destruct (1 <? List.length (invalid_divs divisions))%nat;
    now rewrite !append_assoc.
Qed.

Lemma check_get_all_app (get_all err : string) :
  check_get_all get_all err = err ++ check_get_all get_all EmptyString.
Proof.
  unfold check_get_all.
  destruct (negb (get_all =? "True") && negb (get_all =? "False"))%bool;
    simpl; [reflexivity | now rewrite append_nil_r].
Qed.

(** The accumulated error is the concatenation of what each check adds on
    its own: no check depends on the outcome of another. *)
Lemma validate_parts (queue tier : string) (divisions : list string)
  (get_all : string) :
  validate queue tier divisions get_all
  = check_queue queue EmptyString
    ++ check_tier tier EmptyString
    ++ check_divisions tier divisions EmptyString
    ++ check_get_all get_all EmptyString.
Proof.
  unfold validate.
  rewrite check_get_all_app, check_divisions_app, check_tier_app.
  now rewrite !append_assoc.
Qed.

Lemma check_queue_nil (queue : string) :
  check_queue queue EmptyString = EmptyString <-> py_in queue QUEUES = true.
Proof.
  unfold check_queue. destruct (py_in queue QUEUES); cbn [negb].
  - tauto.
  - split; [| discriminate]. unfold queue_error; simpl; discriminate.
Qed.

Lemma check_tier_nil (tier : string) :
  check_tier tier EmptyString = EmptyString <-> py_in tier TIERS = true.
Proof.
  unfold check_tier. destruct (py_in tier TIERS); cbn [negb].
  - tauto.
  - split; [| discriminate]. unfold tier_error; simpl; discriminate.
Qed.

Lemma check_get_all_nil (get_all : string) :
  check_get_all get_all EmptyString = EmptyString
  <-> get_all = "True" \/ get_all = "False".
Proof.
  unfold check_get_all.
  destruct (String.eqb_spec get_all "True") as [-> | HT]; cbn [negb andb].
  - tauto.
  - destruct (String.eqb_spec get_all "False") as [-> | HF]; cbn [negb].
    + tauto.
    + split; [unfold get_all_error; simpl; discriminate | tauto].
Qed.

Lemma check_divisions_nil (tier : string) (divisions : list string) :
  check_divisions tier divisions EmptyString = EmptyString
  <-> is_special_tier tier = true
      \/ (divisions <> [] /\ invalid_divs divisions = []).
Proof.
  unfold check_divisions.
  destruct (is_special_tier tier); cbn [negb]; [tauto |].
  destruct divisions as [|d ds]; cbn [List.length Nat.eqb].
  - split; [unfold no_divisions_error; simpl; discriminate |].
    intros [? | [? _]]; congruence.
  - destruct (invalid_divs (d :: ds)) as [|b bs] eqn:E; cbn [List.length].
    + split; [right; split; congruence | reflexivity].
    + change (0 <? S (List.length bs))%nat with true. cbv iota.
      split; [| intros [? | [_ ?]]; congruence].
      cbv zeta. intros H. apply append_eq_nil in H as [H _].
      apply append_eq_nil in H as [H _].
      destruct (1 <? S (List.length bs))%nat; simpl in H; discriminate.
Qed.

(** The checks pass exactly on a known queue, a known tier, a known page
    mode and, for a tier with divisions, a non-empty list of known
    divisions. *)
Lemma validate_ok_iff (queue tier : string) (divisions : list string)
  (get_all : string) :
  validate queue tier divisions get_all = EmptyString
  <-> py_in queue QUEUES = true
      /\ py_in tier TIERS = true
      /\ (is_special_tier tier = true
          \/ (divisions <> [] /\ invalid_divs divisions = []))
      /\ (get_all = "True" \/ get_all = "False").
Proof.
  rewrite validate_parts.
  rewrite <- check_queue_nil, <- check_tier_nil,
    <- (check_divisions_nil tier divisions), <- check_get_all_nil.
  split.
  - intros H. apply append_eq_nil in H as [H1 H].
    apply append_eq_nil in H as [H2 H].
    apply append_eq_nil in H as [H3 H4]. auto.
  - intros (-> & -> & -> & ->). reflexivity.
Qed.

Lemma invalid_divs_In (d : string) (divisions : list string) :
  In d (invalid_divs divisions)
  <-> In d divisions /\ py_in d DIVISIONS = false.
Proof.
  unfold invalid_divs. rewrite filter_In.
  destruct (py_in d DIVISIONS); simpl; intuition congruence.
Qed.


(** ** Lists of divisions *)

Lemma list_index_NoDup (x : string) (l : list string) (i : nat) :
  NoDup l -> nth_error l i = Some x -> list_index x l = Some i.
Proof.
  intros Hnd. revert i. induction Hnd as [|y l Hy Hnd IH]; intros i.
  - destruct i; discriminate.
  - destruct i as [|i]; simpl.
    + intros [= ->]. now rewrite String.eqb_refl.
    + intros Hi. destruct (String.eqb_spec y x) as [-> | Hne].
      * exfalso. apply Hy. eapply nth_error_In, Hi.
      * now rewrite (IH i Hi).
Qed.

Lemma last_item_nth (l : list string) (x : string) :
  last_item l = Some x <-> nth_error l (List.length l - 1) = Some x /\ l <> [].
Proof.
  induction l as [|y l IH]; simpl.
  - split; [discriminate | intros [_ H]; congruence].
  - destruct l as [|z l].
    + simpl. split; [intros [= ->]; split; congruence | intros [[= ->] _]; reflexivity].
    + rewrite IH. simpl. rewrite Nat.sub_0_r.
      split; intros [H _]; split; congruence.
Qed.

Lemma last_item_some (l : list string) :
  l <> [] -> exists x, last_item l = Some x.
Proof.
  induction l as [|y l IH]; [congruence |]. intros _.
  destruct l as [|z l]; [now exists y |].
  destruct IH as [x Hx]; [congruence |]. now exists x.
Qed.

(** With no repeated division, the last division is met at the last
    position only. *)
Lemma last_item_NoDup (l : list string) (x : string) (i : nat) :
  NoDup l -> last_item l = Some x -> nth_error l i = Some x ->
  i = List.length l - 1.
Proof.
  intros Hnd Hl Hi. apply last_item_nth in Hl as [Hl _].
  apply (list_index_NoDup _ _ _ Hnd) in Hi, Hl. congruence.
Qed.

Lemma skipn_nth {A : Type} (l : list A) (i : nat) (x : A) :
  nth_error l i = Some x -> skipn i l = x :: skipn (i + 1) l.
Proof.
  revert i. induction l as [|y l IH]; intros [|i]; simpl; try discriminate.
  - now intros [= ->].
  - apply IH.
Qed.

(** The lookup of the next division succeeds from every division of the
    list other than the last. *)
Lemma next_division_defined (l : list string) (cur final : string) :
  In cur l -> last_item l = Some final -> cur <> final ->
  exists i d,
    list_index cur l = Some i /\ nth_error l (i + 1) = Some d /\ In d l.
Proof.
  induction l as [|y l IH]; [contradiction |].
  intros Hin Hlast Hne. simpl list_index.
  destruct (String.eqb_spec y cur) as [-> | Hy].
  - destruct l as [|z l]; [simpl in Hlast; congruence |].
    exists 0, z. simpl. auto.
  - destruct Hin as [-> | Hin]; [congruence |].
    destruct l as [|z l]; [contradiction |].
    destruct (IH Hin Hlast Hne) as (i & d & Hi & Hd & Hdin).
    exists (S i), d. rewrite Hi. simpl. auto.
Qed.

(** ** One execution of the loop body *)

Section BodyFacts.

Variable api_key : string.
Variable http_get : string -> res json.
Variables region queue tier : string.
Variable divisions : list string.
Variable get_all : string.

Local Notation url := (request_url api_key region queue tier).
Local Notation body :=
  (loop_body api_key http_get region queue tier divisions get_all).
Local Notation line := (progress_line queue tier).

(** The two events every execution of the body starts with. *)
Local Notation asked tr st :=
  (tr ++ [EPrint (line (current_division st) (page st));
          EGet (url (current_division st) (page st))])%list.

Lemma body_get_raise (st : locals) (tr : list event) (e : exn) :
  http_get (url (current_division st) (page st)) = Raise e ->
  body st tr = (asked tr st, Raise e).
Proof. intros H. now body_steps. Qed.

Lemma body_len_raise (st : locals) (tr : list event) (resp : json)
  (e : exn) :
  http_get (url (current_division st) (page st)) = Ok resp ->
  py_len resp = Raise e ->
  body st tr = (asked tr st, Raise e).
Proof. intros H1 H2. now body_steps. Qed.

Lemma body_special_nonempty (st : locals) (tr : list event) (resp : json)
  (n : nat) :
  is_special_tier tier = true ->
  http_get (url (current_division st) (page st)) = Ok resp ->
  py_len resp = Ok (S n) ->
  body st tr
  = (asked tr st,
     Ok (Break, {| more_results := more_results st; page := page st;
                   current_division := current_division st;
                   result := (result st ++ [resp])%list |})).
Proof. intros H1 H2 H3. now body_steps. Qed.

Lemma body_special_empty (st : locals) (tr : list event) (resp : json) :
  is_special_tier tier = true ->
  http_get (url (current_division st) (page st)) = Ok resp ->
  py_len resp = Ok 0 ->
  body st tr
  = ((asked tr st ++ [EPrint "and is special tier"])%list,
     Ok (Next, {| more_results := false; page := page st;
                  current_division := current_division st;
                  result := result st |})).
Proof. intros H1 H2 H3. now body_steps. Qed.

Lemma body_empty_last (st : locals) (tr : list event) (resp : json) :
  is_special_tier tier = false ->
  http_get (url (current_division st) (page st)) = Ok resp ->
  py_len resp = Ok 0 ->
  last_item divisions = Some (current_division st) ->
  body st tr
  = (asked tr st,
     Ok (Next, {| more_results := false; page := page st;
                  current_division := current_division st;
                  result := result st |})).
Proof. intros H1 H2 H3 H4. body_steps. now rewrite String.eqb_refl. Qed.

Lemma body_empty_advance (st : locals) (tr : list event) (resp : json)
  (final d : string) (i : nat) :
  is_special_tier tier = false ->
  http_get (url (current_division st) (page st)) = Ok resp ->
  py_len resp = Ok 0 ->
  last_item divisions = Some final ->
  current_division st <> final ->
  list_index (current_division st) divisions = Some i ->
  nth_error divisions (i + 1) = Some d ->
  body st tr
  = (asked tr st,
     Ok (Next, {| more_results := more_results st; page := 1;
                  current_division := d; result := result st |})).
Proof.
  intros H1 H2 H3 H4 Hne H5 H6. apply String.eqb_neq in Hne.
  now body_steps.
Qed.

Lemma body_nonempty_all (st : locals) (tr : list event) (resp : json)
  (n : nat) :
  is_special_tier tier = false ->
  http_get (url (current_division st) (page st)) = Ok resp ->
  py_len resp = Ok (S n) ->
  get_all = "True" ->
  body st tr
  = (asked tr st,
     Ok (Next, {| more_results := more_results st; page := page st + 1;
                  current_division := current_division st;
                  result := (result st ++ [resp])%list |})).
Proof. intros H1 H2 H3 ->. now body_steps. Qed.

Lemma body_nonempty_first_single (st : locals) (tr : list event)
  (resp : json) (n : nat) :
  is_special_tier tier = false ->
  http_get (url (current_division st) (page st)) = Ok resp ->
  py_len resp = Ok (S n) ->
  get_all = "False" ->
  List.length divisions <= 1 ->
  body st tr
  = (asked tr st,
     Ok (Break, {| more_results := more_results st; page := page st;
                   current_division := current_division st;
                   result := (result st ++ [resp])%list |})).
Proof.
  intros H1 H2 H3 -> Hlen. apply Nat.leb_le in Hlen. now body_steps.
Qed.

Lemma body_nonempty_first_last (st : locals) (tr : list event)
  (resp : json) (n : nat) :
  is_special_tier tier = false ->
  http_get (url (current_division st) (page st)) = Ok resp ->
  py_len resp = Ok (S n) ->
  get_all = "False" ->
  last_item divisions = Some (current_division st) ->
  body st tr
  = (asked tr st,
     Ok (Break, {| more_results := more_results st; page := page st;
                   current_division := current_division st;
                   result := (result st ++ [resp])%list |})).
Proof.
  intros H1 H2 H3 -> H4. body_steps.
  destruct (List.length divisions <=? 1)%nat; cbn [andb]; [reflexivity |].
  destruct (1 <? List.length divisions)%nat; cbn [andb]; [| reflexivity].
  now rewrite String.eqb_refl.
Qed.

Lemma body_nonempty_first_advance (st : locals) (tr : list event)
  (resp : json) (n : nat) (final d : string) (i : nat) :
  is_special_tier tier = false ->
  http_get (url (current_division st) (page st)) = Ok resp ->
  py_len resp = Ok (S n) ->
  get_all = "False" ->
  1 < List.length divisions ->
  last_item divisions = Some final ->
  current_division st <> final ->
  list_index (current_division st) divisions = Some i ->
  nth_error divisions (i + 1) = Some d ->
  body st tr
  = (asked tr st,
     Ok (Next, {| more_results := more_results st; page := page st;
                  current_division := d;
                  result := (result st ++ [resp])%list |})).
Proof.
  intros H1 H2 H3 -> Hlen H4 Hne H5 H6. apply String.eqb_neq in Hne.
  assert (Hle : (List.length divisions <=? 1)%nat = false)
    by (apply Nat.leb_gt; lia).
  apply Nat.ltb_lt in Hlen. now body_steps.
Qed.

End BodyFacts.

(** ** The loop *)

Section LoopFacts.

Variable api_key : string.
Variable http_get : string -> res json.
Variables region queue tier : string.
Variable divisions : list string.
Variable get_all : string.

Local Notation url := (request_url api_key region queue tier).
Local Notation body :=
  (loop_body api_key http_get region queue tier divisions get_all).
Local Notation while :=
  (while_more_results api_key http_get region queue tier divisions get_all).
Local Notation halts :=
  (loop_halts api_key http_get region queue tier divisions get_all).
Local Notation line := (progress_line queue tier).
Local Notation asked tr st :=
  (tr ++ [EPrint (line (current_division st) (page st));
          EGet (url (current_division st) (page st))])%list.

Lemma while_done (fuel : nat) (st : locals) (tr : list event) :
  more_results st = false -> while fuel st tr = (tr, Some (Ok st)).
Proof. intros H. destruct fuel; simpl; now rewrite H. Qed.

Lemma while_next (fuel : nat) (st st' : locals) (tr tr' : list event) :
  more_results st = true ->
  body st tr = (tr', Ok (Next, st')) ->
  while (S fuel) st tr = while fuel st' tr'.
Proof. intros H1 H2. simpl. now rewrite H1, H2. Qed.

Lemma while_break (fuel : nat) (st st' : locals) (tr tr' : list event) :
  more_results st = true ->
  body st tr = (tr', Ok (Break, st')) ->
  while (S fuel) st tr = (tr', Some (Ok st')).
Proof. intros H1 H2. simpl. now rewrite H1, H2. Qed.

Lemma while_raise (fuel : nat) (st : locals) (tr tr' : list event)
  (e : exn) :
  more_results st = true ->
  body st tr = (tr', Raise e) ->
  while (S fuel) st tr = (tr', Some (Raise e)).
Proof. intros H1 H2. simpl. now rewrite H1, H2. Qed.

(** More fuel does not change the way a finished loop ended. *)
Lemma while_more_fuel (fuel k : nat) (st : locals) (tr tr' : list event)
  (r : res locals) :
  while fuel st tr = (tr', Some r) -> while (fuel + k) st tr = (tr', Some r).
Proof.
  revert st tr. induction fuel as [|fuel IH]; intros st tr; simpl.
  - destruct (more_results st) eqn:E; cbn [negb]; [discriminate |].
    intros H. now rewrite while_done.
  - destruct (more_results st); cbn [negb]; [| auto].
    destruct (body st tr) as [tr1 [[[] st1] | e]]; auto.
Qed.

Lemma halts_done (st : locals) (tr : list event) :
  more_results st = false -> halts st tr.
Proof. intros H. exists 0. now rewrite while_done. Qed.

Lemma halts_next (st st' : locals) (tr tr' : list event) :
  more_results st = true ->
  body st tr = (tr', Ok (Next, st')) ->
  halts st' tr' -> halts st tr.
Proof.
  intros H1 H2 [fuel H]. exists (S fuel). now rewrite (while_next _ _ _ _ _ H1 H2).
Qed.

Lemma halts_raise (st : locals) (tr tr' : list event) (e : exn) :
  more_results st = true ->
  body st tr = (tr', Raise e) -> halts st tr.
Proof.
  intros H1 H2. exists 1. now rewrite (while_raise _ _ _ _ _ H1 H2).
Qed.

Lemma fetched_app (tr tr' : list event) :
  fetched (tr ++ tr') = (fetched tr ++ fetched tr')%list.
Proof.
  induction tr as [|[] tr IH]; simpl; congruence.
Qed.

Lemma fetched_asked (tr : list event) (st : locals) :
  fetched (asked tr st)
  = (fetched tr ++ [url (current_division st) (page st)])%list.
Proof. now rewrite fetched_app. Qed.

(** Every execution of the body starts with the progress line and the
    request, whatever comes after. *)
Lemma body_trace (st : locals) (tr : list event) :
  exists more, fst (body st tr) = (asked tr st ++ more)%list.
Proof.
  destruct (http_get (url (current_division st) (page st))) as [resp | e]
    eqn:Hget.
  { unfold loop_body, next_division, bind, print, emit, lift, lift_opt, ret.
    cbv zeta. rewrite Hget. cbn beta iota. rewrite <- app_assoc. cbn [app].
    set (t := (tr ++ _)%list).
    destruct (py_len resp) as [n | e]; cbn beta iota;
      [| exists []; now rewrite app_nil_r].
    repeat match goal with
      | |- context [if ?c then _ else _] => destruct c
      | |- context [match ?o with Some _ => _ | None => _ end] => destruct o
      end; cbn beta iota;
      first [ exists []; now rewrite app_nil_r
            | eexists; reflexivity ]. }
  exists []. rewrite (body_get_raise _ _ _ _ _ _ _ _ _ _ Hget).
  now rewrite app_nil_r.
Qed.

(** The trace only grows. *)
Lemma while_trace (fuel : nat) (st : locals) (tr : list event) :
  exists more, fst (while fuel st tr) = (tr ++ more)%list.
Proof.
  revert st tr. induction fuel as [|fuel IH]; intros st tr; simpl.
  - destruct (negb (more_results st)); exists []; now rewrite app_nil_r.
  - destruct (negb (more_results st)); [exists []; now rewrite app_nil_r |].
    destruct (body_trace st tr) as [m1 H1].
    destruct (body st tr) as [tr1 [[[] st1] | e]]; cbn [fst] in *; subst tr1;
      try (eexists; rewrite <- app_assoc; reflexivity).
    destruct (IH st1 (asked tr st ++ m1)%list) as [m2 H2].
    rewrite H2. eexists. rewrite <- !app_assoc. reflexivity.
Qed.

(** A loop that is entered starts with the progress line and the request
    of its first state. *)
Lemma while_first_request (fuel : nat) (st : locals) (tr : list event) :
  more_results st = true ->
  exists more, fst (while (S fuel) st tr) = (asked tr st ++ more)%list.
Proof.
  intros Hmore. simpl. rewrite Hmore. cbn [negb].
  destruct (body_trace st tr) as [m1 H1].
  destruct (body st tr) as [tr1 [[[] st1] | e]]; cbn [fst] in *; subst tr1;
    try (eexists; reflexivity).
  destruct (while_trace fuel st1 (asked tr st ++ m1)%list) as [m2 H2].
  rewrite H2. eexists. rewrite <- !app_assoc. reflexivity.
Qed.

End LoopFacts.

(** ** Walking a list of distinct divisions *)

Section DistinctDivisions.

Variable api_key : string.
Variable http_get : string -> res json.
Variables region queue tier : string.
Variable divisions : list string.
Variable get_all : string.

Hypothesis tier_has_divisions : is_special_tier tier = false.
Hypothesis distinct : NoDup divisions.

Local Notation url := (request_url api_key region queue tier).
Local Notation body :=
  (loop_body api_key http_get region queue tier divisions get_all).
Local Notation while :=
  (while_more_results api_key http_get region queue tier divisions get_all).
Local Notation halts :=
  (loop_halts api_key http_get region queue tier divisions get_all).
Local Notation empty := (empty_page api_key http_get region queue tier).
Local Notation line := (progress_line queue tier).
Local Notation asked tr st :=
  (tr ++ [EPrint (line (current_division st) (page st));
          EGet (url (current_division st) (page st))])%list.

(** Position [i] is the last one exactly when its division is the last
    item. *)
Lemma at_last_position (i : nat) (d : string) :
  nth_error divisions i = Some d ->
  last_item divisions = Some d <-> i + 1 = List.length divisions.
Proof.
  intros Hi.
  assert (Hlt : i < List.length divisions)
    by (apply nth_error_Some; congruence).
  split.
  - intros Hl. pose proof (last_item_NoDup _ _ _ distinct Hl Hi). lia.
  - intros E. apply last_item_nth. split.
    + now replace (List.length divisions - 1) with i by lia.
    + intros ->. simpl in Hlt. lia.
Qed.

(** Before the last position, the next division is the one at the next
    position. *)
Lemma next_position (i : nat) (d : string) :
  nth_error divisions i = Some d ->
  i + 1 < List.length divisions ->
  exists final d',
    last_item divisions = Some final /\ d <> final
    /\ list_index d divisions = Some i
    /\ nth_error divisions (i + 1) = Some d'.
Proof.
  intros Hi Hlt.
  destruct (last_item_some divisions) as [final Hf].
  { intros E. rewrite E in Hlt. simpl in Hlt. lia. }
  destruct (nth_error divisions (i + 1)) as [d'|] eqn:Hd.
  2:{ apply nth_error_None in Hd. lia. }
  exists final, d'. repeat split; auto.
  - intros ->. apply (at_last_position _ _ Hi) in Hf. lia.
  - now apply list_index_NoDup.
Qed.

(** *** First page only *)

Local Notation first_page := (fun d => url d 1).
Local Notation unanswered d :=
  (~ answers api_key http_get region queue tier d 1).

(** From position [i], with [j] divisions still to come, the loop is left
    within [j + 1] executions of its body: either every remaining division
    was asked for its first page once, in order, or a request went wrong
    and the divisions up to that one were. *)
Lemma first_page_walk (j : nat) :
  get_all = "False" ->
  forall (i : nat) (st : locals) (tr : list event),
    i + j + 1 = List.length divisions ->
    nth_error divisions i = Some (current_division st) ->
    more_results st = true ->
    page st = 1 ->
    exists tr' r,
      while (S j) st tr = (tr', Some r)
      /\ ((exists st',
             r = Ok st'
             /\ fetched tr'
                = (fetched tr ++ map first_page (skipn i divisions))%list)
          \/ (exists e m d,
                r = Raise e /\ m <= j
                /\ fetched tr'
                   = (fetched tr
                        ++ map first_page (firstn (S m) (skipn i divisions)))%list
                /\ In d divisions /\ unanswered d)).
Proof.
  intros Hfirst.
  induction j as [|j IH]; intros i st tr Hlen Hi Hmore Hpage.
  all: pose proof (skipn_nth _ _ _ Hi) as Hskip.
  all: assert (Hcur : In (current_division st) divisions)
         by (eapply nth_error_In; eassumption).
  all: destruct (http_get (url (current_division st) (page st)))
         as [resp | e] eqn:Hget.
  all: try (destruct (py_len resp) as [[|n] | e] eqn:Hn).
  all: try solve
         [ (* the request or [len] raises *)
           do 2 eexists; split;
           [ eapply while_raise;
             [ eassumption
             | first [ eapply body_get_raise; eassumption
                     | eapply body_len_raise; eassumption ] ]
           | right; exists e, 0, (current_division st);
             rewrite fetched_asked, Hskip, Hpage; cbn [firstn map];
             repeat split; auto; try lia;
             intros (resp' & n' & Hr' & Hn'); rewrite Hpage in *;
             congruence ] ].
  - (* last division, empty first page *)
    do 2 eexists; split.
    + eapply eq_trans;
        [ eapply while_next;
          [ assumption
          | eapply body_empty_last; [eassumption .. |];
            apply (at_last_position _ _ Hi); lia ]
        | apply while_done; reflexivity ].
    + left. eexists. split; [reflexivity |].
      rewrite fetched_asked, Hskip, Hpage.
      assert (Hx: List.length divisions <= i + 1) by lia.
      rewrite (skipn_all2 _ Hx). reflexivity.
  - (* last division, first page with entries *)
    do 2 eexists; split.
    + eapply while_break;
        [ assumption
        | eapply body_nonempty_first_last; [eassumption .. |];
          apply (at_last_position _ _ Hi); lia ].
    + left. eexists. split; [reflexivity |].
      rewrite fetched_asked, Hskip, Hpage.
      rewrite skipn_all2 by lia. reflexivity.
  - (* an earlier division, empty first page *)
    destruct (next_position _ _ Hi) as (final & d' & Hf & Hne & Hix & Hd');
      [lia |].
    set (st1 := {| more_results := more_results st; page := 1;
                   current_division := d'; result := result st |}).
    destruct (IH (i + 1) st1 (asked tr st)) as (tr' & r & Hw & Hr);
      [lia | exact Hd' | exact Hmore | reflexivity |].
    exists tr', r. split.
    + erewrite while_next;
        [ exact Hw | assumption | eapply body_empty_advance; eassumption ].
    + rewrite Hskip.
      destruct Hr as [(st' & -> & Hfe) | (e & m & d & -> & Hm & Hfe & Hd)];
        rewrite fetched_asked, Hpage, <- app_assoc in Hfe.
      * left. eexists. split; [reflexivity |]. rewrite Hfe. reflexivity.
      * right. exists e, (S m), d.
        split; [reflexivity | split; [lia | split; [| exact Hd]]].
        rewrite Hfe, (firstn_cons (S m)). reflexivity.
  - (* an earlier division, first page with entries *)
    destruct (next_position _ _ Hi) as (final & d' & Hf & Hne & Hix & Hd');
      [lia |].
    set (st1 := {| more_results := more_results st; page := page st;
                   current_division := d';
                   result := (result st ++ [resp])%list |}).
    destruct (IH (i + 1) st1 (asked tr st)) as (tr' & r & Hw & Hr);
      [lia | exact Hd' | exact Hmore | exact Hpage |].
    exists tr', r. split.
    + erewrite while_next;
        [ exact Hw | assumption
        | eapply body_nonempty_first_advance; try eassumption; lia ].
    + rewrite Hskip.
      destruct Hr as [(st' & -> & Hfe) | (e & m & d & -> & Hm & Hfe & Hd)];
        rewrite fetched_asked, Hpage, <- app_assoc in Hfe.
      * left. eexists. split; [reflexivity |]. rewrite Hfe. reflexivity.
      * right. exists e, (S m), d.
        split; [reflexivity | split; [lia | split; [| exact Hd]]].
        rewrite Hfe, (firstn_cons (S m)). reflexivity.
Qed.

(** *** All pages *)

Hypothesis pages_end :
  forall d, In d divisions -> exists p, 1 <= p /\ empty d p.

(** The pages of one division: the loop reaches the empty page, where it
    is left if the division is the last one, and otherwise goes on with the
    next division at page 1, from where [later] tells that it halts. *)
Lemma pages_of_division_halt (k : nat) :
  get_all = "True" ->
  forall (i : nat) (st : locals) (tr : list event),
    nth_error divisions i = Some (current_division st) ->
    more_results st = true ->
    empty (current_division st) (page st + k) ->
    (forall (st' : locals) (tr' : list event),
        nth_error divisions (i + 1) = Some (current_division st') ->
        more_results st' = true ->
        page st' = 1 ->
        halts st' tr') ->
    halts st tr.
Proof.
  intros Hall.
  induction k as [|k IHk];
    intros i st tr Hi Hmore (r0 & Hr0 & Hl0) later.
  all: destruct (http_get (url (current_division st) (page st)))
         as [resp | e] eqn:Hget;
       [| eapply halts_raise;
          [eassumption | eapply body_get_raise; eassumption] ].
  all: destruct (py_len resp) as [[|n] | e] eqn:Hn;
       [ | | eapply halts_raise;
             [eassumption | eapply body_len_raise; eassumption] ].
  1, 3:
    (* an empty page *)
    destruct (Nat.eq_dec (i + 1) (List.length divisions)) as [Hend | Hmid];
    [ eapply halts_next;
      [ eassumption
      | eapply body_empty_last; [eassumption .. |];
        now apply (at_last_position _ _ Hi)
      | apply halts_done; reflexivity ]
    | assert (Hlt : i < List.length divisions)
        by (apply nth_error_Some; congruence);
      destruct (next_position _ _ Hi) as (final & d' & Hf & Hne & Hix & Hd');
      [ lia
      | eapply halts_next;
        [ eassumption
        | eapply body_empty_advance; eassumption
        | apply later; [exact Hd' | exact Hmore | reflexivity] ] ] ].
  - (* the page assumed empty has entries *)
    rewrite Nat.add_0_r in Hr0. congruence.
  - (* a page with entries: on to the next page *)
    eapply halts_next; [eassumption | eapply body_nonempty_all; eauto |].
    apply (IHk i); cbn [more_results page current_division]; auto.
    exists r0. split; [| assumption].
    now replace (page st + 1 + k) with (page st + S k) by lia.
Qed.

Lemma all_pages_halts_from (j : nat) :
  get_all = "True" ->
  forall (i k : nat) (st : locals) (tr : list event),
    i + j + 1 = List.length divisions ->
    nth_error divisions i = Some (current_division st) ->
    more_results st = true ->
    empty (current_division st) (page st + k) ->
    halts st tr.
Proof.
  intros Hall.
  induction j as [|j IHj]; intros i k st tr Hlen Hi Hmore Hempty;
    apply (pages_of_division_halt k Hall i st tr Hi Hmore Hempty);
    intros st' tr' Hi' Hmore' Hpage'.
  - (* no division follows the last one *)
    assert (i + 1 < List.length divisions)
      by (apply nth_error_Some; congruence).
    lia.
  - destruct (pages_end (current_division st')) as (p & Hp & Hp');
      [eapply nth_error_In; eassumption |].
    apply (IHj (i + 1) (p - 1)); auto; [lia |].
    rewrite Hpage'. now replace (1 + (p - 1)) with p by lia.
Qed.

End DistinctDivisions.

(** ** The whole function *)

Section RunFacts.

Variables api_key now : string.
Variable http_get : string -> res json.
Variables region queue tier : string.
Variable divisions : list string.
Variable get_all : string.

Local Notation url := (request_url api_key region queue tier).
Local Notation while :=
  (while_more_results api_key http_get region queue tier divisions get_all).
Local Notation run :=
  (get_league_entries_as_csv api_key now http_get region queue tier
     divisions get_all).
Local Notation start := (initial_locals divisions).
Local Notation csv := (write_csv now tier divisions get_all).
Local Notation name := (filename now tier divisions get_all).
Local Notation line := (progress_line queue tier).

(** A failed validation prints the accumulated text and the note, and does
    nothing else. *)
Lemma run_rejected (fuel : nat) :
  validate queue tier divisions get_all <> EmptyString ->
  run fuel
  = {| events := [EPrint (validate queue tier divisions get_all ++ case_note)];
       exit := Normal |}.
Proof.
  intros H. unfold get_league_entries_as_csv.
  apply String.eqb_neq in H. rewrite H. reflexivity.
Qed.

Lemma run_accepted (fuel : nat) :
  validate queue tier divisions get_all = EmptyString ->
  run fuel
  = match while fuel start [] with
    | (tr, None) => {| events := tr; exit := OutOfFuel |}
    | (tr, Some (Raise e)) => {| events := tr; exit := Uncaught e |}
    | (tr, Some (Ok st)) => let (tr', r) := csv st tr in finish tr' r
    end.
Proof.
  intros H. unfold get_league_entries_as_csv. now rewrite H.
Qed.

(** Writing the file requests nothing. *)
Lemma csv_trace (st : locals) (tr : list event) :
  exists more,
    fst (csv st tr) = (tr ++ more)%list /\ fetched more = [].
Proof.
  unfold write_csv, rows_of_result, bind, print, emit, lift, lift_opt.
  destruct (is_special_tier tier).
  - destruct (nth_error (result st) 0) as [first |]; cbn beta iota;
      [| exists []; now rewrite app_nil_r].
    destruct (getitem_key first "entries") as [entries | e]; cbn beta iota;
      [| exists []; now rewrite app_nil_r].
    destruct (py_iter entries) as [rows | e]; cbn beta iota;
      [| exists []; now rewrite app_nil_r].
    rewrite <- app_assoc. eexists. split; reflexivity.
  - destruct (rows_of_pages (result st)) as [rows | e]; cbn beta iota;
      [| exists []; now rewrite app_nil_r].
    rewrite <- app_assoc. eexists. split; reflexivity.
Qed.

(** The requests of a run are those of its loop. *)
Lemma run_fetched (fuel : nat) :
  validate queue tier divisions get_all = EmptyString ->
  fetched (events (run fuel)) = fetched (fst (while fuel start [])).
Proof.
  intros H. rewrite (run_accepted _ H).
  destruct (while fuel start []) as [tr [[st | e] |]]; cbn [fst];
    try reflexivity.
  destruct (csv_trace st tr) as (more & Hm & Hf).
  destruct (csv st tr) as [tr' r]. cbn [fst] in Hm. subst tr'.
  cbn [finish events]. now rewrite fetched_app, Hf, app_nil_r.
Qed.

(** A run is out of fuel exactly when its loop is. *)
Lemma run_exit (fuel : nat) :
  validate queue tier divisions get_all = EmptyString ->
  snd (while fuel start []) <> None ->
  exit (run fuel) <> OutOfFuel.
Proof.
  intros H Hw. rewrite (run_accepted _ H).
  destruct (while fuel start []) as [tr [[st | e] |]]; cbn [snd] in Hw;
    [| discriminate | congruence].
  destruct (csv st tr) as [tr' [u | e]]; discriminate.
Qed.

(** A run that passed validation starts with the progress line and the
    request for page 1 of the first division. *)
Lemma run_first_request (fuel : nat) :
  validate queue tier divisions get_all = EmptyString ->
  exists more,
    events (run (S fuel))
    = EPrint (line (current_division start) 1)
        :: EGet (url (current_division start) 1) :: more.
Proof.
  intros H. rewrite (run_accepted _ H).
  destruct (while_first_request api_key http_get region queue tier divisions
              get_all fuel start [] eq_refl) as [m Hm].
  destruct (while (S fuel) start []) as [tr [[st | e] |]]; cbn [fst] in Hm.
  - destruct (csv_trace st tr) as (more & Hc & _).
    destruct (csv st tr) as [tr' r]. cbn [fst] in Hc. subst tr' tr.
    cbn [finish events]. rewrite <- !app_assoc. eexists. reflexivity.
  - subst tr. eexists. reflexivity.
  - subst tr. eexists. reflexivity.
Qed.

(** More fuel does not change a run that was not out of fuel. *)
Lemma run_more_fuel (fuel k : nat) :
  exit (run fuel) <> OutOfFuel -> run (fuel + k) = run fuel.
Proof.
  unfold get_league_entries_as_csv.
  destruct (validate queue tier divisions get_all =? EmptyString);
    [| reflexivity].
  destruct (while fuel start []) as [tr [r |]] eqn:Hw.
  - intros _. now rewrite (while_more_fuel _ _ _ _ _ _ _ _ _ _ _ _ _ Hw).
  - cbn [exit]. congruence.
Qed.

(** What follows the loop for a tier without divisions. *)
Lemma csv_special (st : locals) (tr : list event) (resp entries : json)
  (pages rows : list json) :
  is_special_tier tier = true ->
  result st = resp :: pages ->
  getitem_key resp "entries" = Ok entries ->
  py_iter entries = Ok rows ->
  csv st tr
  = ((tr ++ [EToCsv name rows;
             EPrint (name ++ " successfully generated.")])%list, Ok tt).
Proof.
  intros H1 H2 H3 H4.
  unfold write_csv, rows_of_result, bind, print, emit, lift, lift_opt.
  rewrite H1, H2. cbn [nth_error]. rewrite H3, H4.
  now rewrite <- app_assoc.
Qed.

Lemma csv_special_no_page (st : locals) (tr : list event) :
  is_special_tier tier = true ->
  result st = [] ->
  csv st tr = (tr, Raise IndexError).
Proof.
  intros H1 H2.
  unfold write_csv, rows_of_result, bind, print, emit, lift, lift_opt.
  now rewrite H1, H2.
Qed.

End RunFacts.

(** ** Validation *)

(** C8. Whenever validation fails, that is, whenever the accumulated error
    text is not empty, the run prints that text followed by the note on
    case sensitivity and does nothing else: it sends no request, writes no
    file and ends normally, whatever the fuel. *)
Theorem validation_failure_only_prints :
  forall (api_key now : string) (http_get : string -> res json)
         (region queue tier : string) (divisions : list string)
         (get_all : string) (fuel : nat),
    validate queue tier divisions get_all <> EmptyString ->
    let o := get_league_entries_as_csv api_key now http_get region queue tier
               divisions get_all fuel in
    events o = [EPrint (validate queue tier divisions get_all ++ case_note)]
    /\ fetched (events o) = []
    /\ written (events o) = []
    /\ exit o = Normal.
Proof.
  intros api_key now http_get region queue tier divisions get_all fuel H o.
  subst o. rewrite (run_rejected _ _ _ _ _ _ _ _ _ H). auto.
Qed.

Lemma validation_failure_only_prints_witness :
  let o := get_league_entries_as_csv "KEY" "NOW" one_record_stub "oc1"
             "RANKED_SOLO_5x5" "gold" ["I"] "True" 5 in
  events o
  = [EPrint (validate "RANKED_SOLO_5x5" "gold" ["I"] "True" ++ case_note)]
  /\ fetched (events o) = []
  /\ written (events o) = []
  /\ exit o = Normal.
Proof.
  apply (validation_failure_only_prints "KEY" "NOW" one_record_stub "oc1"
           "RANKED_SOLO_5x5" "gold" ["I"] "True" 5).
  vm_compute. discriminate.
Defined.

(** What each check adds to an empty error, case by case. *)
Lemma check_queue_text (queue : string) :
  (In queue QUEUES -> check_queue queue EmptyString = EmptyString)
  /\ (~ In queue QUEUES ->
      check_queue queue EmptyString
      = "Invalid queue " ++ dq ++ queue ++ dq
          ++ ". Options: ['RANKED_SOLO_5x5', 'RANKED_FLEX_SR', 'RANKED_FLEX_TT']"
          ++ nl).
Proof.
  unfold check_queue. split; intros H.
  - apply py_in_true in H. now rewrite H.
  - destruct (py_in queue QUEUES) eqn:E;
      [apply py_in_true in E; contradiction | reflexivity].
Qed.

Lemma check_tier_text (tier : string) :
  (In tier TIERS -> check_tier tier EmptyString = EmptyString)
  /\ (~ In tier TIERS ->
      check_tier tier EmptyString
      = "Invalid tier " ++ dq ++ tier ++ dq
          ++ ". Options: ['IRON', 'BRONZE', 'SILVER', 'GOLD', 'PLATINUM', 'EMERALD', 'DIAMOND', 'MASTER', 'GRANDMASTER', 'CHALLENGER']"
          ++ nl).
Proof.
  unfold check_tier. split; intros H.
  - apply py_in_true in H. now rewrite H.
  - destruct (py_in tier TIERS) eqn:E;
      [apply py_in_true in E; contradiction | reflexivity].
Qed.

Lemma check_get_all_text (get_all : string) :
  (get_all = "True" \/ get_all = "False" ->
   check_get_all get_all EmptyString = EmptyString)
  /\ (get_all <> "True" -> get_all <> "False" ->
      check_get_all get_all EmptyString
      = "Invalid option for " ++ dq ++ "get all" ++ dq
          ++ "(returns all pages of results if " ++ dq ++ "True" ++ dq
          ++ ", or only first if " ++ dq ++ "False" ++ dq ++ ")."
          ++ "Options: " ++ dq ++ "True" ++ dq ++ " or " ++ dq ++ "False"
          ++ dq ++ ".").
Proof.
  split.
  - now apply check_get_all_nil.
  - intros HT HF. unfold check_get_all.
    apply String.eqb_neq in HT, HF. now rewrite HT, HF.
Qed.

Lemma check_divisions_text (tier : string) (divisions : list string) :
  (is_special_tier tier = true ->
   check_divisions tier divisions EmptyString = EmptyString)
  /\ (is_special_tier tier = false -> divisions = [] ->
      check_divisions tier divisions EmptyString
      = "No divisions specified. Options: ['I', 'II', 'III', 'IV']" ++ nl)
  /\ (is_special_tier tier = false -> divisions <> [] ->
      (forall d, In d divisions -> In d DIVISIONS) ->
      check_divisions tier divisions EmptyString = EmptyString)
  /\ (is_special_tier tier = false ->
      forall d, In d divisions -> ~ In d DIVISIONS ->
        check_divisions tier divisions EmptyString
        = "Invalid division"
            ++ (if (1 <? List.length (invalid_divs divisions))%nat
                then "s" else EmptyString)
            ++ ": " ++ dq ++ str_list (invalid_divs divisions) ++ dq
            ++ ". Options: ['I', 'II', 'III', 'IV']" ++ nl
            ++ "Separate multiple divisions by comma. Example: " ++ dq
            ++ "I, IV" ++ dq ++ " will return " ++ dq ++ "I" ++ dq
            ++ " and " ++ dq ++ "IV" ++ dq ++ " only." ++ nl).
Proof.
  split; [| split; [| split]].
  - intros H. apply check_divisions_nil. now left.
  - intros H ->. unfold check_divisions. now rewrite H.
  - intros H Hne Hall. apply check_divisions_nil. right.
    split; [exact Hne |].
    destruct (invalid_divs divisions) as [|b bs] eqn:E; [reflexivity |].
    assert (Hb : In b (invalid_divs divisions)) by (rewrite E; now left).
    apply invalid_divs_In in Hb as [Hb Hbad].
    apply Hall, py_in_true in Hb. congruence.
  - intros H d Hin Hbad. unfold check_divisions. rewrite H. cbn [negb].
    assert (Hb : In d (invalid_divs divisions)).
    { apply invalid_divs_In. split; [exact Hin |].
      destruct (py_in d DIVISIONS) eqn:E; [| reflexivity].
      apply py_in_true in E. contradiction. }
    destruct divisions as [|x xs]; [contradiction |].
    cbn [List.length Nat.eqb].
    destruct (invalid_divs (x :: xs)) as [|b bs]; [contradiction |].
    cbn [List.length]. change (0 <? S (List.length bs))%nat with true.
    cbv iota zeta.
    destruct (1 <? S (List.length bs))%nat;
      rewrite !append_assoc; reflexivity.
Qed.

(** C3. Every check runs whatever the earlier ones found: the accumulated
    error is, in this order, what the queue check, the tier check, the
    divisions check and the page mode check add, and each adds nothing when
    it passes and its own message when it fails, whatever the others do.
    The messages are spelled out: they name the rejected queue or tier, and
    the one on divisions holds the list of all the unknown divisions, in
    the order given, so each of them is named and not only the first.
    Hence the error is empty exactly when all four checks pass, and
    requests are sent exactly when the error is empty. For the divisions I,
    V and X of GOLD the error names both V and X. *)
Theorem checks_accumulate :
  forall (queue tier : string) (divisions : list string) (get_all : string),
    let err := validate queue tier divisions get_all in
    let bad := invalid_divs divisions in
    (exists qe te de ge,
        err = qe ++ te ++ de ++ ge
        /\ (In queue QUEUES -> qe = EmptyString)
        /\ (~ In queue QUEUES ->
            qe = "Invalid queue " ++ dq ++ queue ++ dq
                   ++ ". Options: ['RANKED_SOLO_5x5', 'RANKED_FLEX_SR', 'RANKED_FLEX_TT']"
                   ++ nl)
        /\ (In tier TIERS -> te = EmptyString)
        /\ (~ In tier TIERS ->
            te = "Invalid tier " ++ dq ++ tier ++ dq
                   ++ ". Options: ['IRON', 'BRONZE', 'SILVER', 'GOLD', 'PLATINUM', 'EMERALD', 'DIAMOND', 'MASTER', 'GRANDMASTER', 'CHALLENGER']"
                   ++ nl)
        /\ (is_special_tier tier = true -> de = EmptyString)
        /\ (is_special_tier tier = false -> divisions = [] ->
            de = "No divisions specified. Options: ['I', 'II', 'III', 'IV']"
                   ++ nl)
        /\ (is_special_tier tier = false -> divisions <> [] ->
            (forall d, In d divisions -> In d DIVISIONS) ->
            de = EmptyString)
        /\ (is_special_tier tier = false ->
            forall d, In d divisions -> ~ In d DIVISIONS ->
              de = "Invalid division"
                     ++ (if (1 <? List.length bad)%nat
                         then "s" else EmptyString)
                     ++ ": " ++ dq ++ str_list bad ++ dq
                     ++ ". Options: ['I', 'II', 'III', 'IV']" ++ nl
                     ++ "Separate multiple divisions by comma. Example: "
                     ++ dq ++ "I, IV" ++ dq ++ " will return " ++ dq ++ "I"
                     ++ dq ++ " and " ++ dq ++ "IV" ++ dq ++ " only." ++ nl
              /\ occurs (repr d) (str_list bad))
        /\ (get_all = "True" \/ get_all = "False" -> ge = EmptyString)
        /\ (get_all <> "True" -> get_all <> "False" ->
            ge = "Invalid option for " ++ dq ++ "get all" ++ dq
                   ++ "(returns all pages of results if " ++ dq ++ "True"
                   ++ dq ++ ", or only first if " ++ dq ++ "False" ++ dq
                   ++ ")." ++ "Options: " ++ dq ++ "True" ++ dq ++ " or "
                   ++ dq ++ "False" ++ dq ++ "."))
    /\ (forall x, In x bad <-> In x divisions /\ ~ In x DIVISIONS)
    /\ (err = EmptyString
        <-> In queue QUEUES
            /\ In tier TIERS
            /\ (is_special_tier tier = true
                \/ (divisions <> []
                    /\ forall d, In d divisions -> In d DIVISIONS))
            /\ (get_all = "True" \/ get_all = "False"))
    /\ (forall (api_key now : string) (http_get : string -> res json)
               (region : string) (fuel : nat),
          (err = EmptyString
           <-> fetched (events (get_league_entries_as_csv api_key now
                                  http_get region queue tier divisions
                                  get_all (S fuel)))
               <> [])
          /\ (err <> EmptyString ->
              get_league_entries_as_csv api_key now http_get region queue
                tier divisions get_all fuel
              = {| events := [EPrint (err ++ case_note)]; exit := Normal |}))
    /\ validate "RANKED_SOLO_5x5" "GOLD" ["I"; "V"; "X"] "True"
       = "Invalid divisions: " ++ dq ++ "['V', 'X']" ++ dq
           ++ ". Options: ['I', 'II', 'III', 'IV']" ++ nl
           ++ "Separate multiple divisions by comma. Example: " ++ dq
           ++ "I, IV" ++ dq ++ " will return " ++ dq ++ "I" ++ dq ++ " and "
           ++ dq ++ "IV" ++ dq ++ " only." ++ nl.
Proof.
  intros queue tier divisions get_all err bad. subst err bad.
  split; [| split; [| split; [| split]]].
  - exists (check_queue queue EmptyString), (check_tier tier EmptyString),
      (check_divisions tier divisions EmptyString),
      (check_get_all get_all EmptyString).
    destruct (check_queue_text queue) as [Hq1 Hq2].
    destruct (check_tier_text tier) as [Ht1 Ht2].
    destruct (check_divisions_text tier divisions)
      as (Hd1 & Hd2 & Hd3 & Hd4).
    destruct (check_get_all_text get_all) as [Hg1 Hg2].
    split; [apply validate_parts |].
    repeat match goal with |- _ /\ _ => split end; auto.
    intros Hsp d Hin Hbad. split; [now apply (Hd4 Hsp d) |].
    apply occurs_str_list, invalid_divs_In. split; [exact Hin |].
    destruct (py_in d DIVISIONS) eqn:E; [| reflexivity].
    apply py_in_true in E. contradiction.
  - intros x. rewrite invalid_divs_In. split; intros [H1 H2]; split; auto.
    + intros Hin. apply py_in_true in Hin. congruence.
    + destruct (py_in x DIVISIONS) eqn:E; [| reflexivity].
      apply py_in_true in E. contradiction.
  - rewrite validate_ok_iff, !py_in_true.
    assert (Hbad : invalid_divs divisions = []
                   <-> forall d, In d divisions -> In d DIVISIONS).
    { split.
      - intros E d Hin. destruct (py_in d DIVISIONS) eqn:Hd;
          [now apply py_in_true |].
        assert (Hb : In d (invalid_divs divisions))
          by (apply invalid_divs_In; auto).
        rewrite E in Hb. contradiction.
      - intros Hall.
        destruct (invalid_divs divisions) as [|b bs] eqn:E; [reflexivity |].
        assert (Hb : In b (invalid_divs divisions)) by (rewrite E; now left).
        apply invalid_divs_In in Hb as [Hb Hno].
        apply Hall, py_in_true in Hb. congruence. }
    rewrite Hbad. tauto.
  - intros api_key now http_get region fuel. split; [split |].
    + intros H.
      destruct (run_first_request api_key now http_get region queue tier
                  divisions get_all fuel H) as [more ->].
      discriminate.
    + intros Hreq.
      destruct (String.eqb_spec (validate queue tier divisions get_all)
                  EmptyString) as [E | E]; [exact E |].
      rewrite (run_rejected _ _ _ _ _ _ _ _ _ E) in Hreq.
      now elim Hreq.
    + intros H. apply run_rejected, H.
  - reflexivity.
Qed.

Lemma checks_accumulate_witness :
  let err := validate "SOLO" "gold" ["I"; "V"; "X"] "yes" in
  err <> EmptyString
  /\ exists te de ge,
       err = ("Invalid queue " ++ dq ++ "SOLO" ++ dq
                ++ ". Options: ['RANKED_SOLO_5x5', 'RANKED_FLEX_SR', 'RANKED_FLEX_TT']"
                ++ nl) ++ te ++ de ++ ge
       /\ te <> EmptyString /\ de <> EmptyString /\ ge <> EmptyString.
Proof.
  destruct (checks_accumulate "SOLO" "gold" ["I"; "V"; "X"] "yes")
    as ((qe & te & de & ge & E & _ & Hq & _ & Ht & _ & _ & _ & Hd & _ & Hg)
        & _ & Hok & _).
  cbv zeta in *.
  assert (Hq' : ~ In "SOLO" QUEUES)
    by (intros H; apply py_in_true in H; discriminate H).
  assert (Ht' : ~ In "gold" TIERS)
    by (intros H; apply py_in_true in H; discriminate H).
  assert (Hd' : ~ In "V" DIVISIONS)
    by (intros H; apply py_in_true in H; discriminate H).
  specialize (Hq Hq'). specialize (Ht Ht').
  destruct (Hd eq_refl "V" (or_intror (or_introl eq_refl)) Hd') as [Hd1 _].
  assert (Hg' : ge <> EmptyString)
    by (rewrite Hg; [discriminate | discriminate | discriminate]).
  split.
  - rewrite E, Hq. discriminate.
  - exists te, de, ge. rewrite E, Hq.
    split; [reflexivity |]. split; [rewrite Ht; discriminate |].
    split; [rewrite Hd1; discriminate | exact Hg'].
Defined.

(** *** Tiers without divisions *)

(** For a tier without divisions the checks do not look at the divisions. *)
Lemma validate_special_ignores_divisions (queue tier : string)
  (divisions : list string) (get_all : string) :
  is_special_tier tier = true ->
  validate queue tier divisions get_all = validate queue tier [] get_all.
Proof.
  intros H. rewrite !validate_parts. unfold check_divisions.
  now rewrite H.
Qed.

(** The script turns away every command line that names a tier without
    divisions and does not hold exactly three arguments after the script
    name. *)
Lemma main_special_arity (api_key now : string)
  (http_get : string -> res json) (fuel : nat) (args : list string) :
  is_special_tier (nth 3 args EmptyString) = true ->
  List.length args <> 4 ->
  main api_key now http_get fuel args
  = {| events := fst (usage args []); exit := Normal |}.
Proof.
  intros Hsp Hlen. unfold main. cbv zeta. rewrite Hsp.
  apply Nat.eqb_neq in Hlen. rewrite Hlen. cbn [andb negb].
  rewrite andb_false_r. reflexivity.
Qed.

(** C1, as the claim states it, fails: the function validates MASTER with
    the division I supplied, requests the league and writes its file. *)
Lemma special_tier_with_division_is_accepted :
  is_special_tier "MASTER" = true
  /\ validate "RANKED_SOLO_5x5" "MASTER" ["I"] "True" = EmptyString
  /\ (let o := get_league_entries_as_csv "KEY" "NOW" league_stub "oc1"
                 "RANKED_SOLO_5x5" "MASTER" ["I"] "True" 1 in
      fetch_count (events o) = 1
      /\ written (events o)
         = [("league_data_MASTER_TIER_ALL_NOW.csv",
             [entry "a"; entry "b"; entry "c"])]
      /\ exit o = Normal).
Proof. vm_compute. repeat split. Qed.

(** C1, amended. For a tier of MASTER, GRANDMASTER and CHALLENGER the
    checks of the function pass with an empty divisions list when queue and
    page mode are valid, and they do not look at the divisions: the verdict
    is the same whatever divisions are supplied. A divisions argument on
    the command line is turned away by the argument count alone: the script
    prints its usage text, calls nothing and requests nothing. *)
Theorem special_tier_divisions_are_not_checked :
  forall tier : string,
    tier = "MASTER" \/ tier = "GRANDMASTER" \/ tier = "CHALLENGER" ->
    (forall queue get_all : string,
        py_in queue QUEUES = true ->
        get_all = "True" \/ get_all = "False" ->
        validate queue tier [] get_all = EmptyString)
    /\ (forall (queue : string) (divisions : list string) (get_all : string),
          validate queue tier divisions get_all
          = validate queue tier [] get_all)
    /\ (forall (api_key now : string) (http_get : string -> res json)
               (fuel : nat) (args : list string),
          nth 3 args EmptyString = tier ->
          List.length args <> 4 ->
          let o := main api_key now http_get fuel args in
          o = {| events := fst (usage args []); exit := Normal |}
          /\ fetched (events o) = []
          /\ written (events o) = []).
Proof.
  intros tier Htier. apply is_special_tier_iff in Htier.
  split; [| split].
  - intros queue get_all Hq Hg. apply validate_ok_iff.
    auto using special_tier_in_TIERS.
  - intros queue divisions get_all.
    now apply validate_special_ignores_divisions.
  - intros api_key now http_get fuel args Harg Hlen o. subst o tier.
    rewrite (main_special_arity _ _ _ _ _ Htier Hlen).
    repeat split.
Qed.

Lemma special_tier_divisions_are_not_checked_witness :
  validate "RANKED_FLEX_SR" "CHALLENGER" [] "True" = EmptyString
  /\ validate "RANKED_FLEX_SR" "CHALLENGER" ["I"; "V"] "True"
     = validate "RANKED_FLEX_SR" "CHALLENGER" [] "True"
  /\ fetched (events (main "KEY" "NOW" league_stub 5
                        ["league_entries_csv.py"; "oc1"; "RANKED_FLEX_SR";
                         "CHALLENGER"; "I"; "True"]))
     = [].
Proof.
  destruct (special_tier_divisions_are_not_checked "CHALLENGER")
    as (H1 & H2 & H3); [auto |].
  split; [| split].
  - apply H1; [reflexivity | auto].
  - apply H2.
  - apply H3; [reflexivity | simpl; lia].
Defined.

(** *** The region *)

(** C2, as the claim states it, fails: mars is none of the sixteen
    regions, and yet validation reports nothing and the request goes to
    that host. *)
Lemma unknown_region_is_requested :
  py_in "mars" REGIONS = false
  /\ (let o := get_league_entries_as_csv "KEY" "NOW" one_record_stub "mars"
                 "RANKED_SOLO_5x5" "GOLD" ["I"] "False" 1 in
      fetched (events o)
      = ["https://mars.api.riotgames.com/lol/league/v4/entries/RANKED_SOLO_5x5/GOLD/I/?page=1&api_key=KEY"]
      /\ List.length (written (events o)) = 1
      /\ exit o = Normal).
Proof. vm_compute. repeat split. Qed.

(** C2, amended. The region is not among the validated filters: the checks
    read the queue, the tier, the divisions and the page mode only. For
    every region string, one of the sixteen or not, a run whose four other
    filters are valid goes on to collect, and its first request is sent to
    the host named after the region; a run with an invalid filter prints
    the same text for every region. *)
Theorem region_is_not_validated :
  forall (api_key now : string) (http_get : string -> res json)
         (region queue tier : string) (divisions : list string)
         (get_all : string) (fuel : nat),
    (validate queue tier divisions get_all = EmptyString ->
     exists more,
       events (get_league_entries_as_csv api_key now http_get region queue
                 tier divisions get_all (S fuel))
       = EPrint (progress_line queue tier
                   (current_division (initial_locals divisions)) 1)
           :: EGet (request_url api_key region queue tier
                      (current_division (initial_locals divisions)) 1)
           :: more)
    /\ (validate queue tier divisions get_all <> EmptyString ->
        forall region' : string,
          get_league_entries_as_csv api_key now http_get region queue tier
            divisions get_all fuel
          = get_league_entries_as_csv api_key now http_get region' queue tier
              divisions get_all fuel).
Proof.
  intros api_key now http_get region queue tier divisions get_all fuel.
  split.
  - apply run_first_request.
  - intros H region'. now rewrite !(run_rejected _ _ _ _ _ _ _ _ _ H).
Qed.

Lemma region_is_not_validated_witness :
  exists more,
    events (get_league_entries_as_csv "KEY" "NOW" one_record_stub "mars"
              "RANKED_SOLO_5x5" "GOLD" ["I"] "False" 1)
    = EPrint (progress_line "RANKED_SOLO_5x5" "GOLD" "I" 1)
        :: EGet (request_url "KEY" "mars" "RANKED_SOLO_5x5" "GOLD" "I" 1)
        :: more.
Proof.
  apply (region_is_not_validated "KEY" "NOW" one_record_stub "mars"
           "RANKED_SOLO_5x5" "GOLD" ["I"] "False" 0).
  reflexivity.
Defined.

(** ** Tiers without divisions: one request *)

Section SpecialTier.

Variables api_key now : string.
Variable http_get : string -> res json.
Variables region queue tier : string.
Variable divisions : list string.
Variable get_all : string.

Hypothesis special : is_special_tier tier = true.
Hypothesis valid : validate queue tier divisions get_all = EmptyString.

Local Notation start := (initial_locals divisions).
Local Notation url :=
  (request_url api_key region queue tier (current_division start) 1).
Local Notation line :=
  (progress_line queue tier (current_division start) 1).
Local Notation while :=
  (while_more_results api_key http_get region queue tier divisions get_all).
Local Notation run :=
  (get_league_entries_as_csv api_key now http_get region queue tier
     divisions get_all).
Local Notation name := (filename now tier divisions get_all).

(** The loop of a tier without divisions is over after one execution of
    its body. *)
Lemma special_loop (fuel : nat) :
  exists tr r,
    while (S fuel) start [] = (tr, Some r) /\ fetched tr = [url].
Proof.
  destruct (http_get url) as [resp | e] eqn:Hget.
  2:{ do 2 eexists. split;
        [eapply while_raise; [reflexivity | eapply body_get_raise; eassumption]
        | reflexivity]. }
  destruct (py_len resp) as [[|n] | e] eqn:Hn.
  - do 2 eexists. split.
    + eapply eq_trans;
        [ eapply while_next;
          [reflexivity | eapply body_special_empty; eassumption]
        | apply while_done; reflexivity ].
    + reflexivity.
  - do 2 eexists. split;
      [ eapply while_break;
        [reflexivity | eapply body_special_nonempty; eassumption]
      | reflexivity ].
  - do 2 eexists. split;
      [ eapply while_raise;
        [reflexivity | eapply body_len_raise; eassumption]
      | reflexivity ].
Qed.

Lemma special_run_empty (resp : json) (fuel : nat) :
  http_get url = Ok resp ->
  py_len resp = Ok 0 ->
  run (S fuel)
  = {| events := [EPrint line; EGet url; EPrint "and is special tier"];
       exit := Uncaught IndexError |}.
Proof.
  intros Hget Hn. rewrite (run_accepted _ _ _ _ _ _ _ _ _ valid).
  erewrite while_next;
    [ | reflexivity | eapply body_special_empty; eassumption ].
  rewrite while_done by reflexivity.
  rewrite csv_special_no_page by auto. reflexivity.
Qed.

Lemma special_run_entries (resp entries : json) (rows : list json)
  (n fuel : nat) :
  http_get url = Ok resp ->
  py_len resp = Ok (S n) ->
  getitem_key resp "entries" = Ok entries ->
  py_iter entries = Ok rows ->
  run (S fuel)
  = {| events := [EPrint line; EGet url; EToCsv name rows;
                  EPrint (name ++ " successfully generated.")];
       exit := Normal |}.
Proof.
  intros Hget Hn He Hr. rewrite (run_accepted _ _ _ _ _ _ _ _ _ valid).
  erewrite while_break;
    [ | reflexivity | eapply body_special_nonempty; eassumption ].
  erewrite csv_special;
    [reflexivity | exact special | reflexivity | eassumption | eassumption].
Qed.

End SpecialTier.

(** C6. For a tier without divisions that passed validation, every run
    with fuel for one execution of the loop body sends exactly one request,
    for page 1, and leaves the loop after it, whatever the response and
    however much fuel is left. When the response is a non-empty object
    whose [entries] can be iterated, their items are the rows of the one
    file written, in order. With the stub that answers with the entries a,
    b and c, the rows are a, b and c after one request. *)
Theorem special_tier_fetches_once :
  forall (api_key now : string) (http_get : string -> res json)
         (region queue tier : string) (divisions : list string)
         (get_all : string) (fuel : nat),
    is_special_tier tier = true ->
    validate queue tier divisions get_all = EmptyString ->
    let o := get_league_entries_as_csv api_key now http_get region queue tier
               divisions get_all (S fuel) in
    let url := request_url api_key region queue tier
                 (current_division (initial_locals divisions)) 1 in
    fetched (events o) = [url]
    /\ exit o <> OutOfFuel
    /\ (forall (resp entries : json) (rows : list json) (n : nat),
          http_get url = Ok resp ->
          py_len resp = Ok (S n) ->
          getitem_key resp "entries" = Ok entries ->
          py_iter entries = Ok rows ->
          written (events o) = [(filename now tier divisions get_all, rows)]
          /\ exit o = Normal)
    /\ (let o' := get_league_entries_as_csv "KEY" "NOW" league_stub "oc1"
                    "RANKED_SOLO_5x5" "CHALLENGER" [] "True" (S fuel) in
        written (events o')
        = [("league_data_CHALLENGER_TIER_ALL_NOW.csv",
            [entry "a"; entry "b"; entry "c"])]
        /\ fetch_count (events o') = 1
        /\ exit o' = Normal).
Proof.
  intros api_key now http_get region queue tier divisions get_all fuel
    Hsp Hval o url. subst o url.
  destruct (special_loop api_key http_get region queue tier divisions get_all
              Hsp fuel) as (tr & r & Hw & Hf).
  split; [| split; [| split]].
  - rewrite (run_fetched _ _ _ _ _ _ _ _ _ Hval), Hw. exact Hf.
  - apply run_exit; [exact Hval |]. rewrite Hw. discriminate.
  - intros resp entries rows n Hget Hn He Hr.
    rewrite (special_run_entries _ _ _ _ _ _ _ _ Hsp Hval _ _ _ _ _
               Hget Hn He Hr).
    split; reflexivity.
  - rewrite (special_run_entries "KEY" "NOW" league_stub "oc1"
               "RANKED_SOLO_5x5" "CHALLENGER" [] "True" eq_refl eq_refl
               _ _ _ 0 fuel eq_refl eq_refl eq_refl eq_refl).
    repeat split.
Qed.

Lemma special_tier_fetches_once_witness :
  let o := get_league_entries_as_csv "KEY" "NOW" league_stub "na1"
             "RANKED_FLEX_SR" "MASTER" [] "True" 3 in
  fetched (events o)
  = [request_url "KEY" "na1" "RANKED_FLEX_SR" "MASTER" EmptyString 1]
  /\ exit o <> OutOfFuel.
Proof.
  destruct (special_tier_fetches_once "KEY" "NOW" league_stub "na1"
              "RANKED_FLEX_SR" "MASTER" [] "True" 2 eq_refl eq_refl)
    as (H1 & H2 & _).
  split; [exact H1 | exact H2].
Defined.

(** C10. For a tier without divisions that passed validation, an empty
    response to the one request ends the loop with nothing collected, and
    indexing the first collected response then raises: the run ends with an
    uncaught [IndexError] after the progress line, the request and the line
    of the empty branch, and no file is written. *)
Theorem special_tier_empty_response_aborts :
  forall (api_key now : string) (http_get : string -> res json)
         (region queue tier : string) (divisions : list string)
         (get_all : string) (resp : json) (fuel : nat),
    is_special_tier tier = true ->
    validate queue tier divisions get_all = EmptyString ->
    http_get (request_url api_key region queue tier
                (current_division (initial_locals divisions)) 1) = Ok resp ->
    py_len resp = Ok 0 ->
    let o := get_league_entries_as_csv api_key now http_get region queue tier
               divisions get_all (S fuel) in
    exit o = Uncaught IndexError
    /\ written (events o) = []
    /\ fetch_count (events o) = 1
    /\ events o
       = [EPrint (progress_line queue tier
                    (current_division (initial_locals divisions)) 1);
          EGet (request_url api_key region queue tier
                  (current_division (initial_locals divisions)) 1);
          EPrint "and is special tier"].
Proof.
  intros api_key now http_get region queue tier divisions get_all resp fuel
    Hsp Hval Hget Hn o. subst o.
  rewrite (special_run_empty _ _ _ _ _ _ _ _ Hsp Hval _ _ Hget Hn).
  repeat split.
Qed.

Lemma special_tier_empty_response_aborts_witness :
  let o := get_league_entries_as_csv "KEY" "NOW" empty_stub "oc1"
             "RANKED_SOLO_5x5" "GRANDMASTER" [] "True" 1 in
  exit o = Uncaught IndexError
  /\ written (events o) = []
  /\ fetch_count (events o) = 1
  /\ events o
     = [EPrint (progress_line "RANKED_SOLO_5x5" "GRANDMASTER" EmptyString 1);
        EGet (request_url "KEY" "oc1" "RANKED_SOLO_5x5" "GRANDMASTER"
                EmptyString 1);
        EPrint "and is special tier"].
Proof.
  apply (special_tier_empty_response_aborts "KEY" "NOW" empty_stub "oc1"
           "RANKED_SOLO_5x5" "GRANDMASTER" [] "True" (JObj []) 0);
    reflexivity.
Defined.

(** ** Tiers with divisions *)

(** X13. In a tier with divisions, on the label the loop keeps in
    [current_division]: let the request for the current page of the current
    division be answered with an empty body. If the label equals the last
    item of the list, the loop is over after this request, with nothing
    added to the collected responses. Otherwise the lookup of the next
    division raises nothing (the label is in the list and is not its last
    item), and the loop goes on with the item that follows the first
    occurrence of the label, at page 1, with nothing added. The page number
    plays no part: a division whose first page is empty is left like one
    whose pages are used up. In a list without repetition the label is the
    last item exactly at the last position, and the item that follows is
    the one at the next position. With the single division I and all
    pages, over a stub with entries on pages 1 and 2 and none on page 3,
    three requests are sent and the rows are those of pages 1 and 2. *)
Theorem empty_response_ends_or_advances :
  forall (api_key : string) (http_get : string -> res json)
         (region queue tier : string) (divisions : list string)
         (get_all : string) (st : locals) (tr : list event) (resp : json)
         (fuel : nat),
    is_special_tier tier = false ->
    In (current_division st) divisions ->
    more_results st = true ->
    http_get (request_url api_key region queue tier (current_division st)
                (page st)) = Ok resp ->
    py_len resp = Ok 0 ->
    let tr' :=
      (tr ++ [EPrint (progress_line queue tier (current_division st)
                        (page st));
              EGet (request_url api_key region queue tier
                      (current_division st) (page st))])%list in
    exists final,
      last_item divisions = Some final
      /\ (current_division st = final ->
          while_more_results api_key http_get region queue tier divisions
            get_all (S fuel) st tr
          = (tr', Some (Ok {| more_results := false; page := page st;
                              current_division := current_division st;
                              result := result st |})))
      /\ (current_division st <> final ->
          exists i d,
            list_index (current_division st) divisions = Some i
            /\ nth_error divisions (i + 1) = Some d
            /\ In d divisions
            /\ while_more_results api_key http_get region queue tier
                 divisions get_all (S fuel) st tr
               = while_more_results api_key http_get region queue tier
                   divisions get_all fuel
                   {| more_results := true; page := 1;
                      current_division := d; result := result st |} tr')
      /\ (NoDup divisions ->
          forall i, nth_error divisions i = Some (current_division st) ->
            (current_division st = final <-> i + 1 = List.length divisions)
            /\ list_index (current_division st) divisions = Some i)
      /\ (let o := get_league_entries_as_csv "KEY" "NOW" two_pages_stub
                     "oc1" "RANKED_SOLO_5x5" "GOLD" ["I"] "True"
                     (3 + fuel) in
          fetched (events o) = [gold_I_url 1; gold_I_url 2; gold_I_url 3]
          /\ written (events o)
             = [("league_data_GOLD_TIER_PAGES-ALL_NOW.csv",
                 [entry "a"; entry "b"; entry "c"])]
          /\ exit o = Normal).
Proof.
  intros api_key http_get region queue tier divisions get_all st tr resp
    fuel Hsp Hin Hmore Hget Hn tr'. subst tr'.
  destruct (last_item_some divisions) as [final Hf].
  { intros E. rewrite E in Hin. contradiction. }
  exists final. split; [exact Hf |]. split; [| split; [| split]].
  - intros E. rewrite <- E in Hf.
    eapply eq_trans;
      [ eapply while_next;
        [assumption | eapply body_empty_last; eassumption]
      | apply while_done; reflexivity ].
  - intros Hne.
    destruct (next_division_defined _ _ _ Hin Hf Hne)
      as (i & d & Hi & Hd & Hdin).
    exists i, d. repeat split; auto.
    erewrite while_next;
      [| assumption | eapply body_empty_advance; eassumption].
    now rewrite Hmore.
  - intros Hnd i Hi. split.
    + rewrite <- (at_last_position _ Hnd _ _ Hi). split.
      * now intros <-.
      * intros H. congruence.
    + now apply list_index_NoDup.
  - rewrite run_more_fuel; [| vm_compute; discriminate].
    vm_compute. repeat split.
Qed.

Lemma empty_response_ends_or_advances_witness :
  exists final,
    last_item ["I"; "II"] = Some final
    /\ ("I" <> final ->
        exists i d,
          list_index "I" ["I"; "II"] = Some i
          /\ nth_error ["I"; "II"] (i + 1) = Some d
          /\ In d ["I"; "II"]
          /\ while_more_results "KEY" empty_stub "oc1" "RANKED_SOLO_5x5"
               "GOLD" ["I"; "II"] "True" 2 (initial_locals ["I"; "II"]) []
             = while_more_results "KEY" empty_stub "oc1" "RANKED_SOLO_5x5"
                 "GOLD" ["I"; "II"] "True" 1
                 {| more_results := true; page := 1;
                    current_division := d; result := [] |}
                 [EPrint (progress_line "RANKED_SOLO_5x5" "GOLD" "I" 1);
                  EGet (request_url "KEY" "oc1" "RANKED_SOLO_5x5" "GOLD"
                          "I" 1)]).
Proof.
  destruct (empty_response_ends_or_advances "KEY" empty_stub "oc1"
              "RANKED_SOLO_5x5" "GOLD" ["I"; "II"] "True"
              (initial_locals ["I"; "II"]) [] (JObj []) 1)
    as (final & Hf & _ & Hadv & _);
    [reflexivity | simpl; auto | reflexivity | reflexivity | reflexivity |].
  exists final. split; [exact Hf | exact Hadv].
Defined.

(** *** Termination *)

Lemma initial_position (divisions : list string) :
  divisions <> [] ->
  nth_error divisions 0
  = Some (current_division (initial_locals divisions)).
Proof. destruct divisions; [congruence | reflexivity]. Qed.

(** On a list without repetition, in first-page-only mode, the loop is left
    within as many executions of its body as there are divisions, and the
    requests are the first pages of an initial segment of the list. *)
Lemma first_page_loop (api_key : string) (http_get : string -> res json)
  (region queue tier : string) (divisions : list string) :
  is_special_tier tier = false ->
  divisions <> [] ->
  NoDup divisions ->
  exists tr r m,
    while_more_results api_key http_get region queue tier divisions "False"
      (List.length divisions) (initial_locals divisions) []
    = (tr, Some r)
    /\ m <= List.length divisions
    /\ fetched tr
       = map (fun d => request_url api_key region queue tier d 1)
           (firstn m divisions)
    /\ ((forall d, In d divisions ->
           answers api_key http_get region queue tier d 1) ->
        m = List.length divisions /\ exists st, r = Ok st).
Proof.
  intros Hsp Hne Hnd.
  assert (Hlen : 0 < List.length divisions)
    by (destruct divisions; [congruence | simpl; lia]).
  destruct (first_page_walk api_key http_get region queue tier divisions
              "False" Hsp Hnd (List.length divisions - 1) eq_refl 0
              (initial_locals divisions) [])
    as (tr & r & Hw & Hr);
    [lia | now apply initial_position | reflexivity | reflexivity |].
  replace (S (List.length divisions - 1)) with (List.length divisions)
    in Hw by lia.
  exists tr, r.
  destruct Hr as [(st' & -> & Hfe) | (e & m & d & -> & Hm & Hfe & Hd & Hun)].
  - exists (List.length divisions). rewrite firstn_all.
    split; [exact Hw |]. split; [lia |]. split; [exact Hfe |].
    intros _. split; [reflexivity | now exists st'].
  - exists (S m).
    split; [exact Hw |]. split; [lia |]. split; [exact Hfe |].
    intros Hall. elim Hun. auto.
Qed.

(** C9. Take a tier with divisions and a non-empty list of divisions
    without repetition. If every division of the list has an empty page,
    the function ends: some amount of fuel is enough for it, whatever the
    page mode, and in both valid page modes the loop itself is left after
    finitely many executions of its body. In first-page-only mode no
    assumption on the responses is needed: with fuel for as many executions
    of the body as there are divisions the function is never out of fuel,
    and its requests are the first pages of an initial segment of the
    list, so at most one request per division. *)
Theorem loop_terminates_on_distinct_divisions :
  forall (api_key now : string) (http_get : string -> res json)
         (region queue tier : string) (divisions : list string)
         (get_all : string),
    is_special_tier tier = false ->
    divisions <> [] ->
    NoDup divisions ->
    ((forall d, In d divisions ->
        exists p, 1 <= p
                  /\ empty_page api_key http_get region queue tier d p) ->
     (get_all = "True" \/ get_all = "False" ->
      loop_halts api_key http_get region queue tier divisions get_all
        (initial_locals divisions) [])
     /\ exists fuel,
         exit (get_league_entries_as_csv api_key now http_get region queue
                 tier divisions get_all fuel) <> OutOfFuel)
    /\ (get_all = "False" ->
        forall fuel, List.length divisions <= fuel ->
          let o := get_league_entries_as_csv api_key now http_get region
                     queue tier divisions get_all fuel in
          exit o <> OutOfFuel
          /\ fetch_count (events o) <= List.length divisions
          /\ exists m,
               fetched (events o)
               = map (fun d => request_url api_key region queue tier d 1)
                   (firstn m divisions)).
Proof.
  intros api_key now http_get region queue tier divisions get_all
    Hsp Hne Hnd.
  assert (Hfirst : loop_halts api_key http_get region queue tier divisions
                     "False" (initial_locals divisions) []).
  { destruct (first_page_loop api_key http_get region queue tier divisions
                Hsp Hne Hnd) as (tr & r & m & Hw & _).
    exists (List.length divisions). rewrite Hw. discriminate. }
  split.
  - intros Hpages.
    assert (Hh : get_all = "True" \/ get_all = "False" ->
                 loop_halts api_key http_get region queue tier divisions
                   get_all (initial_locals divisions) []).
    { intros [Hall | ->]; [| exact Hfirst].
      destruct (Hpages (current_division (initial_locals divisions)))
        as (p & Hp & Hempty).
      { eapply nth_error_In. now apply initial_position. }
      apply (all_pages_halts_from api_key http_get region queue tier
               divisions get_all Hsp Hnd Hpages
               (List.length divisions - 1) Hall 0 (p - 1)).
      - destruct divisions; [congruence | simpl; lia].
      - now apply initial_position.
      - reflexivity.
      - cbn [page initial_locals].
        now replace (1 + (p - 1)) with p by lia. }
    split; [exact Hh |].
    destruct (String.eqb_spec (validate queue tier divisions get_all)
                EmptyString) as [Hval | Hval].
    + destruct Hh as [fuel Hfuel].
      { now apply validate_ok_iff in Hval. }
      exists fuel. now apply run_exit.
    + exists 0. rewrite (run_rejected _ _ _ _ _ _ _ _ _ Hval). discriminate.
  - intros -> fuel Hfuel o. subst o.
    destruct (String.eqb_spec (validate queue tier divisions "False")
                EmptyString) as [Hval | Hval].
    + destruct (first_page_loop api_key http_get region queue tier divisions
                  Hsp Hne Hnd) as (tr & r & m & Hw & Hm & Hfe & _).
      assert (Hex : exit (get_league_entries_as_csv api_key now http_get
                            region queue tier divisions "False"
                            (List.length divisions)) <> OutOfFuel).
      { apply run_exit; [exact Hval |]. rewrite Hw. discriminate. }
      replace fuel
        with (List.length divisions + (fuel - List.length divisions))
        by lia.
      rewrite (run_more_fuel _ _ _ _ _ _ _ _ _ _ Hex).
      split; [exact Hex |].
      unfold fetch_count.
      rewrite (run_fetched _ _ _ _ _ _ _ _ _ Hval), Hw. cbn [fst].
      rewrite Hfe. split; [| eauto].
      rewrite length_map, length_firstn. lia.
    + rewrite (run_rejected _ _ _ _ _ _ _ _ _ Hval). cbn.
      repeat split; [discriminate | lia | now exists 0].
Qed.

Lemma loop_terminates_on_distinct_divisions_witness :
  loop_halts "KEY" two_pages_stub "oc1" "RANKED_SOLO_5x5" "GOLD" ["I"] "True"
    (initial_locals ["I"]) []
  /\ exists fuel,
       exit (get_league_entries_as_csv "KEY" "NOW" two_pages_stub "oc1"
               "RANKED_SOLO_5x5" "GOLD" ["I"] "True" fuel) <> OutOfFuel.
Proof.
  destruct (loop_terminates_on_distinct_divisions "KEY" "NOW" two_pages_stub
              "oc1" "RANKED_SOLO_5x5" "GOLD" ["I"] "True") as [H _].
  - reflexivity.
  - discriminate.
  - constructor; [intros [] | constructor].
  - destruct H as [H1 H2].
    + intros d [<- | []]. exists 3. split; [lia |].
      exists (JArr []). split; reflexivity.
    + split; [apply H1; now left | exact H2].
Defined.

(** *** Repeated divisions *)

(** With the divisions I, II, I and III, first page only, over a service
    that always has entries, the loop goes from I to II and from II back to
    I for ever. *)
Lemma repeated_division_cycles (fuel : nat) :
  forall (st : locals) (tr : list event),
    more_results st = true ->
    current_division st = "I" \/ current_division st = "II" ->
    snd (while_more_results "KEY" one_record_stub "oc1" "RANKED_SOLO_5x5"
           "GOLD" ["I"; "II"; "I"; "III"] "False" fuel st tr) = None.
Proof.
  induction fuel as [|fuel IH]; intros [more p cur res] tr Hmore Hcur;
    cbn [more_results current_division] in *; subst more.
  - reflexivity.
  - destruct Hcur as [-> | ->].
    + erewrite while_next; cycle 1.
      * reflexivity.
      * eapply (body_nonempty_first_advance _ _ _ _ _ _ _ _ _ _ 0 "III"
                  "II" 0).
        all: try reflexivity.
        all: cbn [current_division List.length]; try lia; try discriminate.
      * apply IH; cbn [more_results current_division]; auto.
    + erewrite while_next; cycle 1.
      * reflexivity.
      * eapply (body_nonempty_first_advance _ _ _ _ _ _ _ _ _ _ 0 "III"
                  "I" 1).
        all: try reflexivity.
        all: cbn [current_division List.length]; try lia; try discriminate.
      * apply IH; cbn [more_results current_division]; auto.
Qed.

(** C4 fails on the code when a division is repeated. With the divisions
    I, II and I, first page only, over the stub with one record per
    request, a single request is sent, for division I, and the file holds
    one record: II is never asked for. With I, II, I and III the loop never
    ends: whatever the fuel, the run is out of fuel. *)
Theorem first_page_only_repeated_division :
  (let o := get_league_entries_as_csv "KEY" "NOW" one_record_stub "oc1"
              "RANKED_SOLO_5x5" "GOLD" ["I"; "II"; "I"] "False" 5 in
   validate "RANKED_SOLO_5x5" "GOLD" ["I"; "II"; "I"] "False" = EmptyString
   /\ fetched (events o)
      = [request_url "KEY" "oc1" "RANKED_SOLO_5x5" "GOLD" "I" 1]
   /\ exit o = Normal)
  /\ validate "RANKED_SOLO_5x5" "GOLD" ["I"; "II"; "I"; "III"] "False"
     = EmptyString
  /\ (forall fuel : nat,
        exit (get_league_entries_as_csv "KEY" "NOW" one_record_stub "oc1"
                "RANKED_SOLO_5x5" "GOLD" ["I"; "II"; "I"; "III"] "False"
                fuel) = OutOfFuel).
Proof.
  split; [vm_compute; repeat split |]. split; [reflexivity |].
  intros fuel. rewrite run_accepted by reflexivity.
  pose proof (repeated_division_cycles fuel
                (initial_locals ["I"; "II"; "I"; "III"]) [] eq_refl
                (or_introl eq_refl)) as H.
  destruct (while_more_results _ _ _ _ _ _ _ fuel _ _) as [tr [r |]];
    [discriminate | reflexivity].
Qed.

(** X1. On a list without repetition, first page only, with a validated
    call and every first page answered: the requests are the first pages of
    the divisions, one each, in the order given. With I, II and III over the
    stub with one record per request, three requests, three records. *)
Theorem first_page_only_one_request_per_division :
  forall (api_key now : string) (http_get : string -> res json)
         (region queue tier : string) (divisions : list string)
         (fuel : nat),
    is_special_tier tier = false ->
    NoDup divisions ->
    validate queue tier divisions "False" = EmptyString ->
    (forall d, In d divisions ->
       answers api_key http_get region queue tier d 1) ->
    List.length divisions <= fuel ->
    let o := get_league_entries_as_csv api_key now http_get region queue tier
               divisions "False" fuel in
    fetched (events o)
    = map (fun d => request_url api_key region queue tier d 1) divisions
    /\ exit o <> OutOfFuel
    /\ (let o' := get_league_entries_as_csv "KEY" "NOW" one_record_stub
                    "oc1" "RANKED_SOLO_5x5" "GOLD" ["I"; "II"; "III"]
                    "False" (3 + fuel) in
        fetch_count (events o') = 3
        /\ map (fun f => List.length (snd f)) (written (events o')) = [3]
        /\ exit o' = Normal).
Proof.
  intros api_key now http_get region queue tier divisions fuel
    Hsp Hnd Hval Hans Hfuel o. subst o.
  assert (Hne : divisions <> []).
  { apply validate_ok_iff in Hval as (_ & _ & [H | [H _]] & _);
      [congruence | exact H]. }
  destruct (first_page_loop api_key http_get region queue tier divisions
              Hsp Hne Hnd) as (tr & r & m & Hw & Hm & Hfe & Hall).
  destruct (Hall Hans) as (-> & st & ->).
  assert (Hex : exit (get_league_entries_as_csv api_key now http_get
                        region queue tier divisions "False"
                        (List.length divisions)) <> OutOfFuel).
  { apply run_exit; [exact Hval |]. rewrite Hw. discriminate. }
  replace fuel
    with (List.length divisions + (fuel - List.length divisions)) at 1 2
    by lia.
  rewrite (run_more_fuel _ _ _ _ _ _ _ _ _ _ Hex).
  split; [| split; [exact Hex |]].
  - rewrite (run_fetched _ _ _ _ _ _ _ _ _ Hval), Hw. cbn [fst].
    now rewrite Hfe, firstn_all.
  - rewrite run_more_fuel; [| vm_compute; discriminate].
    vm_compute. repeat split.
Qed.

Lemma first_page_only_one_request_per_division_witness :
  fetched (events (get_league_entries_as_csv "KEY" "NOW" one_record_stub
                     "oc1" "RANKED_SOLO_5x5" "SILVER" ["IV"; "I"] "False" 2))
  = map (fun d => request_url "KEY" "oc1" "RANKED_SOLO_5x5" "SILVER" d 1)
      ["IV"; "I"].
Proof.
  destruct (first_page_only_one_request_per_division "KEY" "NOW"
              one_record_stub "oc1" "RANKED_SOLO_5x5" "SILVER" ["IV"; "I"] 2)
    as (H & _).
  - reflexivity.
  - constructor; [intros [E | []]; discriminate |].
    constructor; [intros [] | constructor].
  - reflexivity.
  - intros d _. eexists. exists 1. split; reflexivity.
  - simpl. lia.
  - exact H.
Defined.

(** ** The file name *)

(** The loop of lines 148 to 151 over divisions that all differ from the
    last one: each is followed by a hyphen. *)
Lemma hyphens_fold (final : string) (front : list string) (acc : string) :
  ~ In final front ->
  fold_left
    (fun acc division =>
       let acc := acc ++ division in
       if negb (String.eqb division final) then acc ++ "-" else acc)
    front acc
  = acc ++ fold_right (fun d s => d ++ "-" ++ s) EmptyString front.
Proof.
  revert acc. induction front as [|d front IH]; intros acc Hnot; simpl.
  - now rewrite append_nil_r.
  - assert (Hd : String.eqb d final = false).
    { apply String.eqb_neq. intros ->. apply Hnot. now left. }
    rewrite Hd. cbn [negb]. rewrite IH by (intros H; apply Hnot; now right).
    now rewrite !append_assoc.
Qed.

Lemma hyphens_join (final : string) (front : list string) :
  fold_right (fun d s => d ++ "-" ++ s) EmptyString front ++ final
  = join "-" (front ++ [final])%list.
Proof.
  induction front as [|d front IH]; [reflexivity |].
  cbn [fold_right app]. rewrite !append_assoc, IH.
  destruct (front ++ [final])%list eqn:E; [| reflexivity].
  destruct front; discriminate.
Qed.

Lemma last_item_snoc (front : list string) (final : string) :
  last_item (front ++ [final])%list = Some final.
Proof.
  induction front as [|d front IH]; [reflexivity |].
  cbn [app]. destruct (front ++ [final])%list eqn:E; [| exact IH].
  destruct front; discriminate.
Qed.

(** C7 fails on the code when the last division also stands earlier in
    the list: no hyphen follows that earlier occurrence. For the divisions
    I and I of GOLD, accepted by validation, the token is II, the name of
    another division, and not I-I; for I, II and I it is III-I. *)
Theorem filename_repeated_division :
  validate "RANKED_SOLO_5x5" "GOLD" ["I"; "I"] "True" = EmptyString
  /\ filename_divisions ["I"; "I"] = "II"
  /\ join "-" ["I"; "I"] = "I-I"
  /\ filename "NOW" "GOLD" ["I"; "I"] "True"
     = "league_data_GOLD_II_PAGES-ALL_NOW.csv"
  /\ filename_divisions ["I"; "II"; "I"] = "III-I".
Proof. repeat split. Qed.

(** X2. The tokens of the file name. The divisions token is TIER for at
    most one division, and for two or more divisions whose last one does not
    stand earlier in the list it is the divisions in the order given,
    joined by hyphens. The pages token is ALL for a tier without
    divisions, otherwise PAGES-ALL when all pages are asked for and PAGE-1
    for the first page only. For II and IV of GOLD with all pages the
    tokens are II-IV and PAGES-ALL. *)
Theorem filename_tokens :
  forall (now tier : string) (divisions : list string) (get_all : string),
    filename now tier divisions get_all
    = "league_data_" ++ tier ++ "_" ++ filename_divisions divisions ++ "_"
        ++ filename_pages tier get_all ++ "_" ++ now ++ ".csv"
    /\ (List.length divisions <= 1 -> filename_divisions divisions = "TIER")
    /\ (forall front final,
          divisions = (front ++ [final])%list ->
          front <> [] ->
          ~ In final front ->
          filename_divisions divisions = join "-" divisions)
    /\ (is_special_tier tier = true -> filename_pages tier get_all = "ALL")
    /\ (is_special_tier tier = false -> get_all = "True" ->
        filename_pages tier get_all = "PAGES-ALL")
    /\ (is_special_tier tier = false -> get_all = "False" ->
        filename_pages tier get_all = "PAGE-1")
    /\ filename_divisions ["II"; "IV"] = "II-IV"
    /\ filename_pages "GOLD" "True" = "PAGES-ALL".
Proof.
  intros now tier divisions get_all.
  split; [reflexivity |]. split; [| split].
  - intros Hlen. unfold filename_divisions.
    apply Nat.ltb_ge in Hlen. now rewrite Hlen.
  - intros front final -> Hne Hnot. unfold filename_divisions.
    assert (Hlen : (1 <? List.length (front ++ [final])%list)%nat = true).
    { apply Nat.ltb_lt. rewrite length_app. destruct front;
        [congruence | simpl; lia]. }
    rewrite Hlen, last_item_snoc, fold_left_app. cbn [fold_left].
    rewrite String.eqb_refl. cbn [negb].
    rewrite hyphens_fold by exact Hnot. cbn [append].
    apply hyphens_join.
  - unfold filename_pages. repeat split.
    + now intros ->.
    + now intros -> ->.
    + now intros -> ->.
Qed.

Lemma filename_tokens_witness :
  filename_divisions ["III"; "I"; "IV"] = join "-" ["III"; "I"; "IV"].
Proof.
  destruct (filename_tokens "NOW" "GOLD" ["III"; "I"; "IV"] "True")
    as (_ & _ & H & _).
  apply (H ["III"; "I"] "IV").
  - reflexivity.
  - discriminate.
  - intros [E | [E | []]]; discriminate.
Defined.

Lemma list_index_lt (x : string) (l : list string) (i : nat) :
  list_index x l = Some i -> i < List.length l.
Proof.
  revert i. induction l as [|y l IH]; intros i; simpl; [discriminate |].
  destruct (String.eqb y x).
  - intros [= <-]. lia.
  - destruct (list_index x l) as [j |]; simpl; [| discriminate].
    intros [= <-]. specialize (IH j eq_refl). lia.
Qed.

(** ** Invariants of the loop *)

Section Invariants.

Variable api_key : string.
Variable http_get : string -> res json.
Variables region queue tier : string.
Variable divisions : list string.
Variable get_all : string.

Local Notation url := (request_url api_key region queue tier).
Local Notation body :=
  (loop_body api_key http_get region queue tier divisions get_all).
Local Notation while :=
  (while_more_results api_key http_get region queue tier divisions get_all).
Local Notation start := (initial_locals divisions).
Local Notation line := (progress_line queue tier).
Local Notation asked tr st :=
  (tr ++ [EPrint (line (current_division st) (page st));
          EGet (url (current_division st) (page st))])%list.
Local Notation kept := (kept_bodies http_get).

(** An invariant [P] of the executions of the body gives [Q] of whatever
    way the loop ends: by its test, for lack of fuel, by [break] or by an
    exception. *)
Lemma while_rule (P : locals -> list event -> Prop)
  (Q : list event -> option (res locals) -> Prop) :
  (forall st tr, P st tr -> more_results st = false -> Q tr (Some (Ok st))) ->
  (forall st tr, P st tr -> more_results st = true -> Q tr None) ->
  (forall st tr tr' st',
      P st tr -> more_results st = true ->
      body st tr = (tr', Ok (Next, st')) -> P st' tr') ->
  (forall st tr tr' st',
      P st tr -> more_results st = true ->
      body st tr = (tr', Ok (Break, st')) -> Q tr' (Some (Ok st'))) ->
  (forall st tr tr' e,
      P st tr -> more_results st = true ->
      body st tr = (tr', Raise e) -> Q tr' (Some (Raise e))) ->
  forall fuel st tr,
    P st tr -> Q (fst (while fuel st tr)) (snd (while fuel st tr)).
Proof.
  intros Hdone Hfuel Hnext Hbreak Hraise.
  induction fuel as [|fuel IH]; intros st tr HP; simpl;
    destruct (more_results st) eqn:Hmore; cbn [negb fst snd];
    try (now apply Hdone); try (eapply Hfuel; eassumption).
  destruct (body st tr) as [tr' [[[] st'] | e]] eqn:Hb; cbn [fst snd].
  - apply IH. eapply Hnext; eassumption.
  - eapply Hbreak; eassumption.
  - eapply Hraise; eassumption.
Qed.

(** An execution of the body adds the progress line and the request, and
    after them at most the line of the empty branch of a tier without
    divisions. *)
Lemma body_events (st : locals) (tr : list event) :
  exists more,
    fst (body st tr) = (asked tr st ++ more)%list
    /\ (more = [] \/ more = [EPrint "and is special tier"]).
Proof.
  unfold loop_body, next_division, bind, print, emit, lift, lift_opt, ret.
  cbv zeta. rewrite <- app_assoc. cbn [app].
  set (t := (tr ++ _)%list).
  destruct (http_get (url (current_division st) (page st))) as [resp | e];
    cbn beta iota; [| exists []; split; [now rewrite app_nil_r | now left]].
  destruct (py_len resp) as [n | e]; cbn beta iota;
    [| exists []; split; [now rewrite app_nil_r | now left]].
  repeat match goal with
    | |- context [if ?c then _ else _] => destruct c
    | |- context [match ?o with Some _ => _ | None => _ end] => destruct o
    end; cbn beta iota;
    first [ exists []; split; [now rewrite app_nil_r | now left]
          | eexists; split; [reflexivity | now right] ].
Qed.

Lemma body_fetched (st : locals) (tr : list event) :
  fetched (fst (body st tr))
  = (fetched tr ++ [url (current_division st) (page st)])%list.
Proof.
  destruct (body_events st tr) as (more & -> & [-> | ->]);
    rewrite !fetched_app; cbn [fetched app]; now rewrite ?app_nil_r.
Qed.

Lemma written_app (tr tr' : list event) :
  written (tr ++ tr') = (written tr ++ written tr')%list.
Proof. induction tr as [|[] tr IH]; simpl; congruence. Qed.

Lemma body_written (st : locals) (tr : list event) :
  written (fst (body st tr)) = written tr.
Proof.
  destruct (body_events st tr) as (more & -> & [-> | ->]);
    rewrite !written_app; cbn [written app]; now rewrite ?app_nil_r.
Qed.

(** The loop writes no file. *)
Lemma while_written (fuel : nat) (st : locals) (tr : list event) :
  written (fst (while fuel st tr)) = written tr.
Proof.
  apply (while_rule (fun _ t => written t = written tr)
           (fun t _ => written t = written tr)); auto.
  all: intros st0 tr0 tr' x H _ Hb;
       rewrite <- H, <- (body_written st0 tr0), Hb; reflexivity.
Qed.

(** Every execution of the body sends one request. *)
Lemma while_fetch_count (fuel : nat) (st : locals) (tr : list event) :
  fetch_count (fst (while fuel st tr)) <= fetch_count tr + fuel.
Proof.
  revert st tr. induction fuel as [|fuel IH]; intros st tr; simpl;
    destruct (more_results st); cbn [negb fst]; try lia.
  pose proof (body_fetched st tr) as Hf.
  destruct (body st tr) as [tr' [[[] st'] | e]]; cbn [fst] in *.
  - specialize (IH st' tr'). unfold fetch_count in *.
    rewrite Hf, length_app in IH. cbn [List.length] in IH. lia.
  - unfold fetch_count. rewrite Hf, length_app. cbn [List.length]. lia.
  - unfold fetch_count. rewrite Hf, length_app. cbn [List.length]. lia.
Qed.

End Invariants.

(** ** Steps of a tier with divisions *)

Section DivisionSteps.

Variable api_key : string.
Variable http_get : string -> res json.
Variables region queue tier : string.
Variable divisions : list string.
Variable get_all : string.

Hypothesis tier_has_divisions : is_special_tier tier = false.

Local Notation url := (request_url api_key region queue tier).
Local Notation body :=
  (loop_body api_key http_get region queue tier divisions get_all).
Local Notation while :=
  (while_more_results api_key http_get region queue tier divisions get_all).
Local Notation start := (initial_locals divisions).
Local Notation line := (progress_line queue tier).
Local Notation asked tr st :=
  (tr ++ [EPrint (line (current_division st) (page st));
          EGet (url (current_division st) (page st))])%list.
Local Notation kept := (kept_bodies http_get).

(** The last branch of line 127, reached only with a page mode that
    validation turns away. *)
Lemma body_nonempty_other (st : locals) (tr : list event) (resp : json)
  (n : nat) :
  http_get (url (current_division st) (page st)) = Ok resp ->
  py_len resp = Ok (S n) ->
  get_all <> "True" -> get_all <> "False" ->
  body st tr
  = (asked tr st,
     Ok (Break, {| more_results := more_results st; page := page st;
                   current_division := current_division st;
                   result := (result st ++ [resp])%list |})).
Proof.
  intros H1 H2 HT HF. apply String.eqb_neq in HT, HF. now body_steps.
Qed.

(** What one execution of the body does from a division of the list: it
    fails with the service, or it keeps the body if it has entries, stays in
    the list, and leaves the page as it is, resets it to 1 or, in all-pages
    mode, moves to the next page of the same division. The lookups in the
    list of divisions raise nothing. *)
Lemma body_divisions (st : locals) (tr : list event) :
  In (current_division st) divisions ->
  (exists e,
      fails_with http_get (url (current_division st) (page st)) e
      /\ body st tr = (asked tr st, Raise e))
  \/ (exists resp n c st',
        http_get (url (current_division st) (page st)) = Ok resp
        /\ py_len resp = Ok n
        /\ body st tr = (asked tr st, Ok (c, st'))
        /\ result st'
           = (result st ++ if (0 <? n)%nat then [resp] else [])%list
        /\ In (current_division st') divisions
        /\ (page st' = page st \/ page st' = 1
            \/ (page st' = page st + 1 /\ get_all = "True"
                /\ current_division st' = current_division st))).
Proof.
  intros Hin.
  destruct (http_get (url (current_division st) (page st)))
    as [resp | e] eqn:Hget.
  2:{ left. exists e. split; [now left |]. now apply body_get_raise. }
  destruct (py_len resp) as [n | e] eqn:Hn.
  2:{ left. exists e. split; [right; eauto |].
      eapply body_len_raise; eassumption. }
  right. exists resp, n.
  destruct (last_item_some divisions) as [final Hf].
  { intros E. rewrite E in Hin. contradiction. }
  destruct (String.eqb_spec (current_division st) final) as [Hlast | Hmid].
  - (* at the last division *)
    rewrite <- Hlast in Hf.
    destruct n as [|n].
    + do 2 eexists. split; [reflexivity |]. split; [exact Hn |].
      split; [eapply body_empty_last; eassumption |].
      cbn. rewrite app_nil_r. auto.
    + destruct (String.eqb_spec get_all "True") as [HT | HT].
      * do 2 eexists. split; [reflexivity |]. split; [exact Hn |].
        split; [eapply body_nonempty_all; eassumption |].
        cbn. split; [reflexivity | split; [assumption |]].
        right. right. auto.
      * destruct (String.eqb_spec get_all "False") as [HF | HF].
        -- do 2 eexists. split; [reflexivity |]. split; [exact Hn |].
           split; [eapply body_nonempty_first_last; eassumption |].
           cbn. auto.
        -- do 2 eexists. split; [reflexivity |]. split; [exact Hn |].
           split; [eapply body_nonempty_other; eassumption |].
           cbn. auto.
  - (* at an earlier division *)
    destruct (next_division_defined _ _ _ Hin Hf Hmid)
      as (i & d & Hi & Hd & Hdin).
    destruct n as [|n].
    + do 2 eexists. split; [reflexivity |]. split; [exact Hn |].
      split; [eapply body_empty_advance; eassumption |].
      cbn. rewrite app_nil_r. auto.
    + destruct (String.eqb_spec get_all "True") as [HT | HT].
      * do 2 eexists. split; [reflexivity |]. split; [exact Hn |].
        split; [eapply body_nonempty_all; eassumption |].
        cbn. split; [reflexivity | split; [assumption |]].
        right. right. auto.
      * destruct (String.eqb_spec get_all "False") as [HF | HF].
        -- assert (Hlen : 1 < List.length divisions).
           { apply list_index_lt in Hi.
             assert (i + 1 < List.length divisions)
               by (apply nth_error_Some; congruence).
             lia. }
           do 2 eexists. split; [reflexivity |]. split; [exact Hn |].
           split; [eapply body_nonempty_first_advance; eassumption |].
           cbn. auto.
        -- do 2 eexists. split; [reflexivity |]. split; [exact Hn |].
           split; [eapply body_nonempty_other; eassumption |].
           cbn. auto.
Qed.

Lemma kept_snoc (urls : list string) (u : string) (resp : json) (n : nat) :
  http_get u = Ok resp -> py_len resp = Ok n ->
  kept (urls ++ [u])
  = (kept urls ++ if (0 <? n)%nat then [resp] else [])%list.
Proof.
  intros Hget Hn. unfold kept_bodies. rewrite flat_map_app. cbn [flat_map].
  rewrite Hget, Hn, app_nil_r. now destruct n.
Qed.

(** The kept bodies can all be iterated. *)
Lemma kept_rows (urls : list string) :
  exists rows, rows_of_pages (kept urls) = Ok rows.
Proof.
  induction urls as [|u urls [rows IH]]; [now exists [] |].
  unfold kept_bodies in *. cbn [flat_map].
  destruct (http_get u) as [resp | e]; [| now exists rows].
  destruct (py_len resp) as [[|n] | e] eqn:Hn; try (now exists rows).
  cbn [app rows_of_pages]. rewrite IH.
  destruct resp; try discriminate; cbn [py_iter]; eauto.
Qed.

(** From the first division on, the current division stays in the list,
    the collected responses are the kept bodies of the requests sent so
    far, and an exception out of the loop is a failure of the last
    request. *)
Lemma division_loop (fuel : nat) :
  divisions <> [] ->
  match snd (while fuel start []) with
  | Some (Ok st) => result st = kept (fetched (fst (while fuel start [])))
  | Some (Raise e) =>
      exists front u,
        fetched (fst (while fuel start [])) = (front ++ [u])%list
        /\ fails_with http_get u e
  | None => True
  end.
Proof.
  intros Hne.
  apply (while_rule api_key http_get region queue tier divisions get_all
           (fun st tr =>
              In (current_division st) divisions
              /\ result st = kept (fetched tr))
           (fun tr r =>
              match r with
              | Some (Ok st) => result st = kept (fetched tr)
              | Some (Raise e) =>
                  exists front u,
                    fetched tr = (front ++ [u])%list
                    /\ fails_with http_get u e
              | None => True
              end)).
  - now intros st tr [_ H] _.
  - auto.
  - intros st tr tr' st' [Hin Hres] _ Hb.
    destruct (body_divisions st tr Hin)
      as [(e & _ & Hb') | (resp & n & c & st1 & Hget & Hn & Hb' & Hr & Hi & _)];
      rewrite Hb' in Hb; inversion Hb; subst.
    split; [assumption |].
    rewrite Hr, Hres, fetched_asked. symmetry. now apply kept_snoc.
  - intros st tr tr' st' [Hin Hres] _ Hb.
    destruct (body_divisions st tr Hin)
      as [(e & _ & Hb') | (resp & n & c & st1 & Hget & Hn & Hb' & Hr & Hi & _)];
      rewrite Hb' in Hb; inversion Hb; subst.
    rewrite Hr, Hres, fetched_asked. symmetry. now apply kept_snoc.
  - intros st tr tr' e [Hin Hres] _ Hb.
    destruct (body_divisions st tr Hin)
      as [(e' & Hfail & Hb') | (resp & n & c & st1 & _ & _ & Hb' & _)];
      rewrite Hb' in Hb; inversion Hb; subst.
    exists (fetched tr), (url (current_division st) (page st)).
    split; [apply fetched_asked | assumption].
  - split; [| reflexivity].
    destruct divisions; [congruence | now left].
Qed.

(** Every request is for a division of the list and a page from 1 on; in
    a mode other than all pages, for page 1. *)
Lemma division_requests (fuel : nat) :
  divisions <> [] ->
  Forall
    (fun u =>
       exists d p,
         In d divisions /\ 1 <= p /\ (get_all <> "True" -> p = 1)
         /\ u = url d p)
    (fetched (fst (while fuel start []))).
Proof.
  intros Hne.
  set (ok := fun u =>
               exists d p,
                 In d divisions /\ 1 <= p /\ (get_all <> "True" -> p = 1)
                 /\ u = url d p).
  assert (Hstep : forall st tr,
             In (current_division st) divisions ->
             1 <= page st -> (get_all <> "True" -> page st = 1) ->
             Forall ok (fetched tr) ->
             Forall ok (fetched (asked tr st))).
  { intros st tr Hin Hp Hm Hall. rewrite fetched_asked.
    apply Forall_app. split; [assumption |].
    constructor; [| constructor].
    exists (current_division st), (page st). auto. }
  apply (while_rule api_key http_get region queue tier divisions get_all
           (fun st tr =>
              In (current_division st) divisions
              /\ 1 <= page st /\ (get_all <> "True" -> page st = 1)
              /\ Forall ok (fetched tr))
           (fun tr _ => Forall ok (fetched tr))).
  - now intros st tr (_ & _ & _ & H) _.
  - now intros st tr (_ & _ & _ & H) _.
  - intros st tr tr' st' (Hin & Hp & Hm & Hall) _ Hb.
    destruct (body_divisions st tr Hin)
      as [(e & _ & Hb')
         | (resp & n & c & st1 & _ & _ & Hb' & _ & Hi & Hpage)];
      rewrite Hb' in Hb; inversion Hb; subst.
    split; [assumption |].
    split; [destruct Hpage as [-> | [-> | (-> & _)]]; lia |].
    split; [| now apply Hstep].
    intros Hnot.
    destruct Hpage as [-> | [-> | (_ & Hall' & _)]]; auto; congruence.
  - intros st tr tr' st' (Hin & Hp & Hm & Hall) _ Hb.
    destruct (body_divisions st tr Hin)
      as [(e & _ & Hb') | (resp & n & c & st1 & _ & _ & Hb' & _)];
      rewrite Hb' in Hb; inversion Hb; subst.
    now apply Hstep.
  - intros st tr tr' e (Hin & Hp & Hm & Hall) _ Hb.
    destruct (body_divisions st tr Hin)
      as [(e' & _ & Hb') | (resp & n & c & st1 & _ & _ & Hb' & _)];
      rewrite Hb' in Hb; inversion Hb; subst.
    now apply Hstep.
  - cbn [initial_locals page current_division fetched].
    split; [destruct divisions; [congruence | now left] |].
    split; [lia |]. split; [reflexivity | constructor].
Qed.

End DivisionSteps.

(** ** How a run ends *)

Section RunCases.

Variables api_key now : string.
Variable http_get : string -> res json.
Variables region queue tier : string.
Variable divisions : list string.
Variable get_all : string.

Local Notation url := (request_url api_key region queue tier).
Local Notation while :=
  (while_more_results api_key http_get region queue tier divisions get_all).
Local Notation run :=
  (get_league_entries_as_csv api_key now http_get region queue tier
     divisions get_all).
Local Notation start := (initial_locals divisions).
Local Notation csv := (write_csv now tier divisions get_all).
Local Notation name := (filename now tier divisions get_all).
Local Notation kept := (kept_bodies http_get).
Local Notation saved rows :=
  [EToCsv name rows; EPrint (name ++ " successfully generated.")].

(** What follows the loop either raises before anything is written or
    writes the file and prints the closing line. *)
Lemma csv_cases (st : locals) (tr : list event) :
  (exists e, csv st tr = (tr, Raise e))
  \/ (exists rows, csv st tr = ((tr ++ saved rows)%list, Ok tt)).
Proof.
  unfold write_csv, rows_of_result, bind, print, emit, lift, lift_opt.
  destruct (is_special_tier tier).
  - destruct (nth_error (result st) 0) as [first |]; cbn beta iota;
      [| left; eauto].
    destruct (getitem_key first "entries") as [entries | e]; cbn beta iota;
      [| left; eauto].
    destruct (py_iter entries) as [rows | e]; cbn beta iota;
      [| left; eauto].
    right. exists rows. now rewrite <- app_assoc.
  - destruct (rows_of_pages (result st)) as [rows | e]; cbn beta iota;
      [| left; eauto].
    right. exists rows. now rewrite <- app_assoc.
Qed.

Lemma csv_divisions (st : locals) (tr : list event) (rows : list json) :
  is_special_tier tier = false ->
  rows_of_pages (result st) = Ok rows ->
  csv st tr = ((tr ++ saved rows)%list, Ok tt).
Proof.
  intros H1 H2.
  unfold write_csv, rows_of_result, bind, print, emit, lift, lift_opt.
  rewrite H1, H2. now rewrite <- app_assoc.
Qed.

(** A run writes at most one file, as its last act but for the closing
    line, and only when it ends normally. *)
Lemma run_cases (fuel : nat) :
  (exists rows front,
      validate queue tier divisions get_all = EmptyString
      /\ exit (run fuel) = Normal
      /\ events (run fuel) = (front ++ saved rows)%list
      /\ written front = [])
  \/ (written (events (run fuel)) = []
      /\ (exit (run fuel) = Normal ->
          validate queue tier divisions get_all <> EmptyString)).
Proof.
  destruct (String.eqb_spec (validate queue tier divisions get_all)
              EmptyString) as [Hval | Hval].
  2:{ right. rewrite (run_rejected _ _ _ _ _ _ _ _ _ Hval). auto. }
  rewrite (run_accepted _ _ _ _ _ _ _ _ _ Hval).
  pose proof (while_written api_key http_get region queue tier divisions
                get_all fuel start []) as Hw.
  destruct (while fuel start []) as [tr [[st | e] |]]; cbn [fst] in Hw.
  - destruct (csv_cases st tr) as [[e ->] | [rows ->]]; cbn [finish].
    + right. cbn. split; [assumption | discriminate].
    + left. exists rows, tr. auto.
  - right. cbn. split; [assumption | discriminate].
  - right. cbn. split; [assumption | discriminate].
Qed.

(** A validated run over a tier with divisions runs out of fuel, or fails
    with its last request, or writes the entries of the kept bodies. *)
Lemma divisioned_run (fuel : nat) :
  is_special_tier tier = false ->
  validate queue tier divisions get_all = EmptyString ->
  (exit (run fuel) = OutOfFuel /\ written (events (run fuel)) = [])
  \/ (exists e front u,
        exit (run fuel) = Uncaught e
        /\ fetched (events (run fuel)) = (front ++ [u])%list
        /\ fails_with http_get u e
        /\ written (events (run fuel)) = [])
  \/ (exists rows,
        exit (run fuel) = Normal
        /\ rows_of_pages (kept (fetched (events (run fuel)))) = Ok rows
        /\ written (events (run fuel)) = [(name, rows)]).
Proof.
  intros Hsp Hval.
  assert (Hne : divisions <> []).
  { apply validate_ok_iff in Hval as (_ & _ & [H | [H _]] & _);
      [congruence | exact H]. }
  rewrite (run_accepted _ _ _ _ _ _ _ _ _ Hval).
  pose proof (while_written api_key http_get region queue tier divisions
                get_all fuel start []) as Hw.
  pose proof (division_loop api_key http_get region queue tier divisions
                get_all Hsp fuel Hne) as Hl.
  destruct (while fuel start []) as [tr [[st | e] |]]; cbn [fst snd] in *.
  - right. right.
    destruct (kept_rows http_get (fetched tr)) as [rows Hrows].
    rewrite (csv_divisions st tr rows Hsp) by now rewrite Hl.
    exists rows. cbn [finish events exit].
    rewrite fetched_app, written_app, Hw. cbn. rewrite app_nil_r. auto.
  - right. left. destruct Hl as (front & u & Hf & Hfail).
    exists e, front, u. cbn. auto.
  - left. cbn. auto.
Qed.

End RunCases.

(** ** Further properties of validation *)

Lemma invalid_divs_nil (divisions : list string) :
  invalid_divs divisions = [] <-> Forall (fun d => In d DIVISIONS) divisions.
Proof.
  unfold invalid_divs. induction divisions as [|d ds IH]; cbn [filter].
  - split; [constructor | reflexivity].
  - destruct (py_in d DIVISIONS) eqn:E; cbn [negb].
    + apply py_in_true in E. split; intros H.
      * constructor; [exact E | now apply IH].
      * inversion H; subst. now apply IH.
    + split; [discriminate |]. intros H. inversion H as [|? ? Hd _]; subst.
      apply py_in_true in Hd. congruence.
Qed.

(** X3. The checks of the function pass exactly when the queue is one of
    the three queues, the tier one of the ten tiers, the page mode True or
    False and, unless the tier is one of MASTER, GRANDMASTER and
    CHALLENGER, the divisions are a non-empty list of the four division
    labels, repetitions allowed. The comparison is case sensitive: a tier
    or a queue of the lists, once put in lower case, is turned away. *)
Theorem validation_accepts_exactly :
  forall (queue tier : string) (divisions : list string) (get_all : string),
    (validate queue tier divisions get_all = EmptyString
     <-> In queue QUEUES
         /\ In tier TIERS
         /\ (In tier ["MASTER"; "GRANDMASTER"; "CHALLENGER"]
             \/ (divisions <> []
                 /\ Forall (fun d => In d DIVISIONS) divisions))
         /\ (get_all = "True" \/ get_all = "False"))
    /\ (In tier TIERS ->
        validate queue (lower tier) divisions get_all <> EmptyString)
    /\ (In queue QUEUES ->
        validate (lower queue) tier divisions get_all <> EmptyString).
Proof.
  intros queue tier divisions get_all. split; [| split].
  - rewrite validate_ok_iff, invalid_divs_nil.
    change (is_special_tier tier)
      with (py_in tier ["MASTER"; "GRANDMASTER"; "CHALLENGER"]).
    rewrite !py_in_true. tauto.
  - intros Hin H. apply validate_ok_iff in H as (_ & H & _).
    simpl in Hin.
    repeat (destruct Hin as [<- | Hin]; [discriminate H |]).
    contradiction.
  - intros Hin H. apply validate_ok_iff in H as (H & _).
    simpl in Hin.
    repeat (destruct Hin as [<- | Hin]; [discriminate H |]).
    contradiction.
Qed.

Lemma validation_accepts_exactly_witness :
  validate "RANKED_FLEX_SR" "EMERALD" ["IV"; "IV"; "I"] "False" = EmptyString
  /\ validate "RANKED_FLEX_SR" (lower "EMERALD") ["IV"] "False"
     <> EmptyString.
Proof.
  destruct (validation_accepts_exactly "RANKED_FLEX_SR" "EMERALD"
              ["IV"; "IV"; "I"] "False") as ([_ H] & _).
  destruct (validation_accepts_exactly "RANKED_FLEX_SR" "EMERALD"
              ["IV"] "False") as (_ & H' & _).
  split.
  - apply H.
    split; [simpl; auto |]. split; [simpl; auto 10 |].
    split; [| now right].
    right. split; [discriminate |].
    repeat (constructor; [now apply py_in_true |]). constructor.
  - apply H'. simpl. auto 10.
Defined.

(** ** Further properties of a run *)

(** X4. Whatever the arguments, the service and the fuel, a run writes at
    most one file, and only as its last act before the closing line: either
    nothing is written, or validation passed, the run ends normally and its
    trace ends with the file under its derived name and the closing line,
    nothing being written before. A run that does not end normally has
    written nothing. *)
Theorem at_most_one_file_at_the_end :
  forall (api_key now : string) (http_get : string -> res json)
         (region queue tier : string) (divisions : list string)
         (get_all : string) (fuel : nat),
    let o := get_league_entries_as_csv api_key now http_get region queue tier
               divisions get_all fuel in
    let name := filename now tier divisions get_all in
    (written (events o) = []
     \/ exists rows front,
          events o
          = (front ++ [EToCsv name rows;
                       EPrint (name ++ " successfully generated.")])%list
          /\ written front = []
          /\ written (events o) = [(name, rows)]
          /\ exit o = Normal
          /\ validate queue tier divisions get_all = EmptyString)
    /\ (exit o <> Normal -> written (events o) = []).
Proof.
  intros api_key now http_get region queue tier divisions get_all fuel o
    name. subst o name.
  destruct (run_cases api_key now http_get region queue tier divisions
              get_all fuel)
    as [(rows & front & Hval & Hexit & Hev & Hfront) | (Hw & Hn)].
  - split.
    + right. exists rows, front. repeat split; auto.
      rewrite Hev, written_app, Hfront. reflexivity.
    + congruence.
  - split; [now left | auto].
Qed.

(** X5. A validated run over a tier with divisions raises nothing of its
    own: when it ends with an uncaught exception, that exception was
    raised by the last request sent (by the request itself or by [len] of
    its body), and no file is written. The lookups in the list of
    divisions and the iteration over the collected pages never raise. *)
Theorem divisioned_run_fails_only_with_the_service :
  forall (api_key now : string) (http_get : string -> res json)
         (region queue tier : string) (divisions : list string)
         (get_all : string) (fuel : nat) (e : exn),
    is_special_tier tier = false ->
    validate queue tier divisions get_all = EmptyString ->
    let o := get_league_entries_as_csv api_key now http_get region queue tier
               divisions get_all fuel in
    exit o = Uncaught e ->
    exists front u,
      fetched (events o) = (front ++ [u])%list
      /\ fails_with http_get u e
      /\ written (events o) = [].
Proof.
  intros api_key now http_get region queue tier divisions get_all fuel e
    Hsp Hval o Hexit. subst o.
  destruct (divisioned_run api_key now http_get region queue tier divisions
              get_all fuel Hsp Hval)
    as [[H _] | [(e' & front & u & H & Hf & Hfail & Hw) | (rows & H & _)]];
    rewrite H in Hexit; try discriminate.
  inversion Hexit; subst. eauto.
Qed.

Lemma divisioned_run_fails_only_with_the_service_witness :
  exists front u,
    fetched (events (get_league_entries_as_csv "KEY" "NOW" down_stub "oc1"
                       "RANKED_SOLO_5x5" "GOLD" ["I"; "II"] "True" 3))
    = (front ++ [u])%list
    /\ fails_with down_stub u RequestException
    /\ written (events (get_league_entries_as_csv "KEY" "NOW" down_stub
                          "oc1" "RANKED_SOLO_5x5" "GOLD" ["I"; "II"] "True"
                          3))
       = [].
Proof.
  apply (divisioned_run_fails_only_with_the_service "KEY" "NOW" down_stub
           "oc1" "RANKED_SOLO_5x5" "GOLD" ["I"; "II"] "True" 3
           RequestException); reflexivity.
Defined.

Lemma rows_of_arrays (pages : list (list json)) :
  rows_of_pages (map JArr pages) = Ok (concat pages).
Proof.
  induction pages as [|p pages IH]; [reflexivity |].
  cbn [map rows_of_pages py_iter concat]. now rewrite IH.
Qed.

(** X6. When a validated run over a tier with divisions ends normally, the
    one file it writes holds the entries of the bodies of positive length
    among the responses to its requests, in the order of the requests:
    nothing kept is dropped, repeated or reordered. When those bodies are
    arrays, the rows are their items, concatenated. *)
Theorem rows_are_the_entries_of_the_kept_bodies :
  forall (api_key now : string) (http_get : string -> res json)
         (region queue tier : string) (divisions : list string)
         (get_all : string) (fuel : nat),
    is_special_tier tier = false ->
    validate queue tier divisions get_all = EmptyString ->
    let o := get_league_entries_as_csv api_key now http_get region queue tier
               divisions get_all fuel in
    exit o = Normal ->
    exists rows,
      rows_of_pages (kept_bodies http_get (fetched (events o))) = Ok rows
      /\ written (events o) = [(filename now tier divisions get_all, rows)]
      /\ (forall pages,
            kept_bodies http_get (fetched (events o)) = map JArr pages ->
            rows = concat pages).
Proof.
  intros api_key now http_get region queue tier divisions get_all fuel
    Hsp Hval o Hexit. subst o.
  destruct (divisioned_run api_key now http_get region queue tier divisions
              get_all fuel Hsp Hval)
    as [[H _] | [(e' & front & u & H & _) | (rows & _ & Hrows & Hw)]];
    try (rewrite H in Hexit; discriminate).
  exists rows. repeat split; auto.
  intros pages Hp. rewrite Hp, rows_of_arrays in Hrows. congruence.
Qed.

Lemma rows_are_the_entries_of_the_kept_bodies_witness :
  exists rows,
    rows_of_pages
      (kept_bodies two_pages_stub
         (fetched (events (get_league_entries_as_csv "KEY" "NOW"
                             two_pages_stub "oc1" "RANKED_SOLO_5x5" "GOLD"
                             ["I"] "True" 4))))
    = Ok rows
    /\ written (events (get_league_entries_as_csv "KEY" "NOW" two_pages_stub
                          "oc1" "RANKED_SOLO_5x5" "GOLD" ["I"] "True" 4))
       = [(filename "NOW" "GOLD" ["I"] "True", rows)].
Proof.
  destruct (rows_are_the_entries_of_the_kept_bodies "KEY" "NOW"
              two_pages_stub "oc1" "RANKED_SOLO_5x5" "GOLD" ["I"] "True" 4)
    as (rows & H1 & H2 & _); try reflexivity.
  exists rows. split; [exact H1 | exact H2].
Defined.

(** X10. In a validated run over a tier with divisions, whatever the list
    of divisions (repetitions included), the service and the fuel, every
    request is for a division of the list and a page from 1 on, and in
    first-page-only mode every request is for page 1. *)
Theorem requests_stay_in_the_list :
  forall (api_key now : string) (http_get : string -> res json)
         (region queue tier : string) (divisions : list string)
         (get_all : string) (fuel : nat),
    is_special_tier tier = false ->
    validate queue tier divisions get_all = EmptyString ->
    Forall
      (fun u =>
         exists d p,
           In d divisions /\ 1 <= p /\ (get_all = "False" -> p = 1)
           /\ u = request_url api_key region queue tier d p)
      (fetched (events (get_league_entries_as_csv api_key now http_get region
                          queue tier divisions get_all fuel))).
Proof.
  intros api_key now http_get region queue tier divisions get_all fuel
    Hsp Hval.
  assert (Hne : divisions <> []).
  { apply validate_ok_iff in Hval as (_ & _ & [H | [H _]] & _);
      [congruence | exact H]. }
  rewrite (run_fetched _ _ _ _ _ _ _ _ _ Hval).
  eapply Forall_impl;
    [| apply (division_requests api_key http_get region queue tier divisions
                get_all Hsp fuel Hne)].
  intros u (d & p & Hd & Hp & Hm & ->). exists d, p.
  repeat split; auto. intros ->. apply Hm. discriminate.
Qed.

Lemma requests_stay_in_the_list_witness :
  Forall
    (fun u =>
       exists d p,
         In d ["I"; "II"; "I"; "III"] /\ 1 <= p /\ ("False" = "False" -> p = 1)
         /\ u = request_url "KEY" "oc1" "RANKED_SOLO_5x5" "GOLD" d p)
    (fetched (events (get_league_entries_as_csv "KEY" "NOW" one_record_stub
                        "oc1" "RANKED_SOLO_5x5" "GOLD"
                        ["I"; "II"; "I"; "III"] "False" 7))).
Proof.
  apply (requests_stay_in_the_list "KEY" "NOW" one_record_stub "oc1"
           "RANKED_SOLO_5x5" "GOLD" ["I"; "II"; "I"; "III"] "False" 7);
    reflexivity.
Defined.

(** ** A service that never sends an empty page *)

(** In all-pages mode the loop leaves a division only on an empty page:
    while every body has entries it asks for page after page of the same
    division. *)
Lemma full_pages_loop (api_key : string) (http_get : string -> res json)
  (region queue tier : string) (divisions : list string) (fuel : nat) :
  is_special_tier tier = false ->
  (forall u, exists resp n, http_get u = Ok resp /\ py_len resp = Ok (S n)) ->
  forall (st : locals) (tr : list event),
    more_results st = true ->
    snd (while_more_results api_key http_get region queue tier divisions
           "True" fuel st tr) = None
    /\ fetched (fst (while_more_results api_key http_get region queue tier
                       divisions "True" fuel st tr))
       = (fetched tr
            ++ map (request_url api_key region queue tier
                      (current_division st))
                 (seq (page st) fuel))%list.
Proof.
  intros Hsp Hfull.
  induction fuel as [|fuel IH]; intros st tr Hmore.
  - simpl. rewrite Hmore. cbn. now rewrite app_nil_r.
  - destruct (Hfull (request_url api_key region queue tier
                       (current_division st) (page st)))
      as (resp & n & Hget & Hn).
    erewrite while_next;
      [| assumption | eapply body_nonempty_all; eauto].
    edestruct IH as [H1 H2]; [| rewrite H1, H2].
    + exact Hmore.
    + cbn [more_results page current_division].
      rewrite fetched_asked, <- app_assoc, Nat.add_1_r. auto.
Qed.

(** X9. In all-pages mode the loop relies on the service for its end. Over
    a tier with divisions, with a validated call and a service whose every
    body has positive length (the error object of a refused key, say), the
    run never ends: whatever the fuel it is out of fuel, having asked for
    the pages 1, 2, 3 and so on of the first division, one per execution
    of the body, and having written nothing. *)
Theorem all_pages_never_ends_without_an_empty_page :
  forall (api_key now : string) (http_get : string -> res json)
         (region queue tier : string) (divisions : list string)
         (fuel : nat),
    is_special_tier tier = false ->
    validate queue tier divisions "True" = EmptyString ->
    (forall u, exists resp n, http_get u = Ok resp /\ py_len resp = Ok (S n)) ->
    let o := get_league_entries_as_csv api_key now http_get region queue tier
               divisions "True" fuel in
    exit o = OutOfFuel
    /\ fetched (events o)
       = page_urls api_key region queue tier
           (current_division (initial_locals divisions)) fuel
    /\ written (events o) = [].
Proof.
  intros api_key now http_get region queue tier divisions fuel
    Hsp Hval Hfull o. subst o.
  destruct (full_pages_loop api_key http_get region queue tier divisions fuel
              Hsp Hfull (initial_locals divisions) [] eq_refl) as [H1 H2].
  pose proof (while_written api_key http_get region queue tier divisions
                "True" fuel (initial_locals divisions) []) as Hw.
  rewrite (run_accepted _ _ _ _ _ _ _ _ _ Hval).
  destruct (while_more_results _ _ _ _ _ _ _ fuel _ _) as [tr r].
  cbn [fst snd] in *. subst r. cbn. auto.
Qed.

Lemma all_pages_never_ends_without_an_empty_page_witness :
  let o := get_league_entries_as_csv "KEY" "NOW" forbidden_stub "oc1"
             "RANKED_SOLO_5x5" "GOLD" ["I"; "II"] "True" 4 in
  exit o = OutOfFuel
  /\ fetched (events o)
     = page_urls "KEY" "oc1" "RANKED_SOLO_5x5" "GOLD" "I" 4
  /\ written (events o) = [].
Proof.
  apply (all_pages_never_ends_without_an_empty_page "KEY" "NOW"
           forbidden_stub "oc1" "RANKED_SOLO_5x5" "GOLD" ["I"; "II"] 4).
  - reflexivity.
  - reflexivity.
  - intros u. eexists. exists 0. split; reflexivity.
Defined.

(** ** A league without usable entries *)

(** X8. For a validated tier without divisions and a response of positive
    length, the run ends with the exception of the flattening whenever the
    [entries] of the response cannot be read: looking them up raises
    ([KeyError] for an object without that key, [TypeError] for a body
    that is an array), or they cannot be iterated. One request was sent and
    no file is written. *)
Theorem league_without_entries_aborts :
  forall (api_key now : string) (http_get : string -> res json)
         (region queue tier : string) (divisions : list string)
         (get_all : string) (resp : json) (n fuel : nat),
    is_special_tier tier = true ->
    validate queue tier divisions get_all = EmptyString ->
    http_get (request_url api_key region queue tier
                (current_division (initial_locals divisions)) 1) = Ok resp ->
    py_len resp = Ok (S n) ->
    let o := get_league_entries_as_csv api_key now http_get region queue tier
               divisions get_all (S fuel) in
    (forall e,
        getitem_key resp "entries" = Raise e
        \/ (exists entries,
              getitem_key resp "entries" = Ok entries
              /\ py_iter entries = Raise e) ->
        exit o = Uncaught e /\ written (events o) = []
        /\ fetch_count (events o) = 1)
    /\ (forall fields,
          resp = JObj fields -> assoc "entries" fields = None ->
          exit o = Uncaught KeyError)
    /\ (forall items, resp = JArr items -> exit o = Uncaught TypeError).
Proof.
  intros api_key now http_get region queue tier divisions get_all resp n
    fuel Hsp Hval Hget Hn o.
  assert (Hraise : forall e,
             getitem_key resp "entries" = Raise e
             \/ (exists entries,
                   getitem_key resp "entries" = Ok entries
                   /\ py_iter entries = Raise e) ->
             exit o = Uncaught e /\ written (events o) = []
             /\ fetch_count (events o) = 1).
  { intros e He. subst o. rewrite (run_accepted _ _ _ _ _ _ _ _ _ Hval).
    erewrite while_break;
      [ | reflexivity | eapply body_special_nonempty; eassumption ].
    unfold write_csv, rows_of_result, bind, print, emit, lift, lift_opt.
    rewrite Hsp. cbn [result app nth_error initial_locals]. cbn beta iota.
    destruct He as [He | (entries & He & Hit)]; rewrite He; cbn beta iota;
      [| rewrite Hit]; repeat split. }
  split; [exact Hraise |]. split.
  - intros fields -> Hnone. apply Hraise. left.
    cbn [getitem_key]. now rewrite Hnone.
  - intros items ->. apply Hraise. now left.
Qed.

Lemma league_without_entries_aborts_witness :
  exit (get_league_entries_as_csv "KEY" "NOW" forbidden_stub "oc1"
          "RANKED_SOLO_5x5" "CHALLENGER" [] "True" 1)
  = Uncaught KeyError.
Proof.
  destruct (league_without_entries_aborts "KEY" "NOW" forbidden_stub "oc1"
              "RANKED_SOLO_5x5" "CHALLENGER" [] "True"
              (JObj [("status", JObj [("message", JStr "Forbidden");
                                      ("status_code", JNum "403")])])
              0 0 eq_refl eq_refl eq_refl eq_refl) as (_ & H & _).
  apply (H _ eq_refl). reflexivity.
Defined.

Lemma flat_map_nil_skipn {A B : Type} (f : A -> list B) (l : list A)
  (n : nat) :
  List.length l <= n -> flat_map f (skipn n l) = [].
Proof. intros H. now rewrite skipn_all2. Qed.

(** ** All pages of distinct divisions *)

Section AllPagesWalk.

Variable api_key : string.
Variable http_get : string -> res json.
Variables region queue tier : string.
Variable divisions : list string.

Hypothesis tier_has_divisions : is_special_tier tier = false.
Hypothesis distinct : NoDup divisions.

(** The number of the first empty page of each division: the pages before
    it have entries. *)
Variable last_page : string -> nat.

Hypothesis pages_known :
  forall d, In d divisions ->
    1 <= last_page d
    /\ empty_page api_key http_get region queue tier d (last_page d)
    /\ forall q, 1 <= q -> q < last_page d ->
         full_page api_key http_get region queue tier d q.

Local Notation url := (request_url api_key region queue tier).
Local Notation while :=
  (while_more_results api_key http_get region queue tier divisions "True").
Local Notation line := (progress_line queue tier).
Local Notation asked tr st :=
  (tr ++ [EPrint (line (current_division st) (page st));
          EGet (url (current_division st) (page st))])%list.
Local Notation pages_of d :=
  (page_urls api_key region queue tier d (last_page d)).

(** The pages of one division, from the current page to the first empty
    one; [rest] stands for the requests of the divisions that follow. *)
Lemma division_pages (k : nat) :
  forall (i : nat) (st : locals) (tr : list event) (rest : list string),
    nth_error divisions i = Some (current_division st) ->
    more_results st = true ->
    1 <= page st ->
    page st + k = last_page (current_division st) ->
    (i + 1 = List.length divisions -> rest = []) ->
    (i + 1 < List.length divisions ->
     forall (st' : locals) (tr' : list event),
       nth_error divisions (i + 1) = Some (current_division st') ->
       more_results st' = true ->
       page st' = 1 ->
       exists fuel tr'' st'',
         while fuel st' tr' = (tr'', Some (Ok st''))
         /\ fetched tr'' = (fetched tr' ++ rest)%list) ->
    exists fuel tr' st',
      while fuel st tr = (tr', Some (Ok st'))
      /\ fetched tr'
         = (fetched tr
              ++ map (url (current_division st)) (seq (page st) (S k))
              ++ rest)%list.
Proof.
  induction k as [|k IH]; intros i st tr rest Hi Hmore Hpage Hk Hend Hlater.
  all: assert (Hin : In (current_division st) divisions)
         by (eapply nth_error_In; eassumption).
  all: destruct (pages_known _ Hin) as (Hl & (r0 & Hr0 & Hn0) & Hfull).
  - (* the empty page *)
    rewrite Nat.add_0_r in Hk. rewrite <- Hk in Hr0.
    assert (Hlt : i < List.length divisions)
      by (apply nth_error_Some; congruence).
    destruct (Nat.eq_dec (i + 1) (List.length divisions)) as [He | Hmid].
    + exists 1. do 2 eexists. split.
      * eapply eq_trans;
          [ eapply while_next;
            [ assumption
            | eapply body_empty_last; [eassumption .. |];
              now apply (at_last_position _ distinct _ _ Hi) ]
          | apply while_done; reflexivity ].
      * rewrite fetched_asked, (Hend He). reflexivity.
    + destruct (next_position _ distinct _ _ Hi)
        as (final & d' & Hf & Hne & Hix & Hd'); [lia |].
      destruct (Hlater ltac:(lia)
                  {| more_results := more_results st; page := 1;
                     current_division := d'; result := result st |}
                  (asked tr st) Hd' Hmore eq_refl)
        as (fuel & tr'' & st'' & Hw & Hfe).
      exists (S fuel), tr'', st''. split.
      * erewrite while_next;
          [ exact Hw | assumption | eapply body_empty_advance; eassumption ].
      * rewrite Hfe, fetched_asked, <- app_assoc. reflexivity.
  - (* a page with entries *)
    destruct (Hfull (page st)) as (resp & n & Hget & Hn); [lia | lia |].
    destruct (IH i {| more_results := more_results st; page := page st + 1;
                      current_division := current_division st;
                      result := (result st ++ [resp])%list |}
                (asked tr st) rest)
      as (fuel & tr' & st' & Hw & Hfe);
      cbn [more_results page current_division]; auto; try lia.
    exists (S fuel), tr', st'. split.
    + erewrite while_next;
        [ exact Hw | assumption | eapply body_nonempty_all; eauto ].
    + cbn [more_results page current_division] in Hfe.
      rewrite Hfe, fetched_asked, <- app_assoc, Nat.add_1_r. reflexivity.
Qed.

(** From the first page of the division at position [i]: all the pages of
    that division and of those that follow, in order. *)
Lemma all_pages_walk (j : nat) :
  forall (i : nat) (st : locals) (tr : list event),
    i + j + 1 = List.length divisions ->
    nth_error divisions i = Some (current_division st) ->
    more_results st = true ->
    page st = 1 ->
    exists fuel tr' st',
      while fuel st tr = (tr', Some (Ok st'))
      /\ fetched tr'
         = (fetched tr
              ++ flat_map (fun d => pages_of d) (skipn i divisions))%list.
Proof.
  induction j as [|j IH]; intros i st tr Hlen Hi Hmore Hpage.
  all: assert (Hin : In (current_division st) divisions)
         by (eapply nth_error_In; eassumption).
  all: destruct (pages_known _ Hin) as (Hl & _).
  all: assert (E : pages_of (current_division st)
                   = map (url (current_division st))
                       (seq (page st)
                          (S (last_page (current_division st) - 1))))
         by (unfold page_urls; rewrite Hpage; do 2 f_equal; lia).
  all: destruct (division_pages (last_page (current_division st) - 1) i st
                   tr (flat_map (fun d => pages_of d)
                         (skipn (i + 1) divisions)) Hi Hmore)
         as (fuel & tr' & st' & Hw & Hfe);
       try lia.
  all: try (exists fuel, tr', st'; split; [exact Hw |];
            rewrite Hfe, (skipn_nth _ _ _ Hi); cbn [flat_map];
            now rewrite E).
  - intros _. apply flat_map_nil_skipn. lia.
  - intros _ st' tr' Hi' Hmore' Hpage'. apply (IH (i + 1)); auto. lia.
Qed.

End AllPagesWalk.

(** A validated run over a tier with divisions whose loop is left without
    an exception ends normally. *)
Lemma divisioned_run_ok (api_key now : string)
  (http_get : string -> res json) (region queue tier : string)
  (divisions : list string) (get_all : string) (fuel : nat)
  (tr : list event) (st : locals) :
  is_special_tier tier = false ->
  validate queue tier divisions get_all = EmptyString ->
  while_more_results api_key http_get region queue tier divisions get_all
    fuel (initial_locals divisions) [] = (tr, Some (Ok st)) ->
  exit (get_league_entries_as_csv api_key now http_get region queue tier
          divisions get_all fuel) = Normal
  /\ fetched (events (get_league_entries_as_csv api_key now http_get region
                        queue tier divisions get_all fuel))
     = fetched tr.
Proof.
  intros Hsp Hval Hw.
  assert (Hne : divisions <> []).
  { apply validate_ok_iff in Hval as (_ & _ & [H | [H _]] & _);
      [congruence | exact H]. }
  split; [| now rewrite (run_fetched _ _ _ _ _ _ _ _ _ Hval), Hw].
  pose proof (division_loop api_key http_get region queue tier divisions
                get_all Hsp fuel Hne) as Hl.
  rewrite (run_accepted _ _ _ _ _ _ _ _ _ Hval). rewrite Hw in *.
  cbn [fst snd] in Hl.
  destruct (kept_rows http_get (fetched tr)) as [rows Hrows].
  rewrite (csv_divisions now tier divisions get_all st tr rows Hsp)
    by now rewrite Hl.
  reflexivity.
Qed.

(** X7. All-pages mode over a tier with divisions and a list of divisions
    without repetition. If each division has a first empty page, the pages
    before it having entries, then a validated run ends normally, with
    enough fuel, and its requests are exactly the pages of each division
    from page 1 up to and including that empty page, division after
    division in the order given. *)
Theorem all_pages_collects_every_page :
  forall (api_key now : string) (http_get : string -> res json)
         (region queue tier : string) (divisions : list string)
         (last_page : string -> nat),
    is_special_tier tier = false ->
    NoDup divisions ->
    validate queue tier divisions "True" = EmptyString ->
    (forall d, In d divisions ->
       1 <= last_page d
       /\ empty_page api_key http_get region queue tier d (last_page d)
       /\ forall q, 1 <= q -> q < last_page d ->
            full_page api_key http_get region queue tier d q) ->
    exists fuel,
      forall k,
        let o := get_league_entries_as_csv api_key now http_get region queue
                   tier divisions "True" (fuel + k) in
        exit o = Normal
        /\ fetched (events o)
           = flat_map
               (fun d => page_urls api_key region queue tier d (last_page d))
               divisions.
Proof.
  intros api_key now http_get region queue tier divisions last_page
    Hsp Hnd Hval Hpages.
  assert (Hne : divisions <> []).
  { apply validate_ok_iff in Hval as (_ & _ & [H | [H _]] & _);
      [congruence | exact H]. }
  destruct (all_pages_walk api_key http_get region queue tier divisions
              Hsp Hnd last_page Hpages (List.length divisions - 1) 0
              (initial_locals divisions) [])
    as (fuel & tr & st & Hw & Hfe).
  - destruct divisions; [congruence | simpl; lia].
  - now apply initial_position.
  - reflexivity.
  - reflexivity.
  - exists fuel. intros k o. subst o.
    destruct (divisioned_run_ok api_key now http_get region queue tier
                divisions "True" fuel tr st Hsp Hval Hw) as [Hexit Hf].
    rewrite run_more_fuel by (rewrite Hexit; discriminate).
    split; [exact Hexit |]. rewrite Hf, Hfe. reflexivity.
Qed.

Lemma all_pages_collects_every_page_witness :
  exists fuel,
    forall k,
      let o := get_league_entries_as_csv "KEY" "NOW" two_pages_stub "oc1"
                 "RANKED_SOLO_5x5" "GOLD" ["I"] "True" (fuel + k) in
      exit o = Normal
      /\ fetched (events o)
         = flat_map
             (fun d => page_urls "KEY" "oc1" "RANKED_SOLO_5x5" "GOLD" d 3)
             ["I"].
Proof.
  apply (all_pages_collects_every_page "KEY" "NOW" two_pages_stub "oc1"
           "RANKED_SOLO_5x5" "GOLD" ["I"] (fun _ => 3)).
  - reflexivity.
  - constructor; [intros [] | constructor].
  - reflexivity.
  - intros d [<- | []]. split; [lia |]. split.
    + exists (JArr []). split; reflexivity.
    + intros q H1 H2.
      assert (Hq : q = 1 \/ q = 2) by lia.
      destruct Hq as [-> | ->]; do 2 eexists; split; reflexivity.
Defined.

(** ** The command line *)

Lemma split_comma_cons (s : string) :
  exists piece pieces, split_comma s = piece :: pieces.
Proof.
  induction s as [|c s (h & t & IH)]; simpl; [eauto |].
  destruct (Ascii.eqb c ","); [eauto |]. rewrite IH. eauto.
Qed.

Lemma join_split_comma (s : string) : join "," (split_comma s) = s.
Proof.
  induction s as [|c s IH]; [reflexivity |]. simpl.
  destruct (split_comma_cons s) as (h & t & E). rewrite E in *.
  destruct (Ascii.eqb_spec c ",") as [-> | Hc].
  - change (join "," (EmptyString :: h :: t))
      with (EmptyString ++ "," ++ join "," (h :: t)).
    now rewrite IH.
  - destruct t as [|x t].
    + simpl in *. now rewrite IH.
    + change (join "," (String c h :: x :: t))
        with (String c (h ++ "," ++ join "," (x :: t))).
      change (join "," (h :: x :: t)) with (h ++ "," ++ join "," (x :: t))
        in IH.
      now rewrite IH.
Qed.

Lemma split_comma_pieces (s : string) :
  Forall (fun piece => has_char "," piece = false) (split_comma s).
Proof.
  induction s as [|c s IH]; cbn [split_comma]; [repeat constructor |].
  destruct (Ascii.eqb_spec c ",") as [-> | Hc].
  - now constructor.
  - assert (Hc' : Ascii.eqb "," c = false)
      by (apply Ascii.eqb_neq; congruence).
    destruct (split_comma s) as [|h t].
    + constructor; [| constructor]. cbn [has_char]. now rewrite Hc'.
    + inversion IH; subst. constructor; [| assumption].
      cbn [has_char]. now rewrite Hc'.
Qed.

Lemma split_comma_piece (x r : string) :
  has_char "," x = false ->
  split_comma (x ++ String "," r) = x :: split_comma r.
Proof.
  induction x as [|c x IH]; intros H; [reflexivity |].
  cbn [has_char] in H. apply orb_false_iff in H as [Hc Hx].
  cbn [append split_comma]. rewrite Ascii.eqb_sym, Hc. now rewrite IH.
Qed.

Lemma split_comma_single (x : string) :
  has_char "," x = false -> split_comma x = [x].
Proof.
  induction x as [|c x IH]; intros H; [reflexivity |].
  cbn [has_char] in H. apply orb_false_iff in H as [Hc Hx].
  cbn [split_comma]. rewrite Ascii.eqb_sym, Hc. now rewrite IH.
Qed.

Lemma split_comma_join (pieces : list string) :
  pieces <> [] ->
  Forall (fun piece => has_char "," piece = false) pieces ->
  split_comma (join "," pieces) = pieces.
Proof.
  induction pieces as [|x pieces IH]; [congruence |]. intros _ Hall.
  inversion Hall as [|? ? Hx Hrest]; subst.
  destruct pieces as [|y pieces]; [now apply split_comma_single |].
  change (join "," (x :: y :: pieces))
    with (x ++ String "," (join "," (y :: pieces))).
  rewrite split_comma_piece by assumption.
  now rewrite IH by (congruence || assumption).
Qed.

Lemma append_cancel_l (a b c : string) : a ++ b = a ++ c -> b = c.
Proof. induction a; simpl; [auto | intros [= H]; auto]. Qed.

(** X12. The divisions argument of the command line is cut at its commas:
    the pieces are never an empty list, none holds a comma, and joined by
    commas they give the argument back; conversely a non-empty list of
    comma-free pieces is what cutting its join gives. Hence the text on no
    divisions specified never comes out of the divisions check for a list
    cut from a command-line argument: an empty argument is the list of the
    one empty label. *)
Theorem divisions_argument_round_trip :
  forall s : string,
    split_comma s <> []
    /\ join "," (split_comma s) = s
    /\ Forall (fun piece => has_char "," piece = false) (split_comma s)
    /\ (forall pieces,
          pieces <> [] ->
          Forall (fun piece => has_char "," piece = false) pieces ->
          split_comma (join "," pieces) = pieces)
    /\ split_comma EmptyString = [EmptyString]
    /\ (forall tier err,
          check_divisions tier (split_comma s) err
          <> err ++ no_divisions_error).
Proof.
  intros s.
  destruct (split_comma_cons s) as (h & t & E).
  split; [rewrite E; discriminate |].
  split; [apply join_split_comma |].
  split; [apply split_comma_pieces |].
  split; [apply split_comma_join |].
  split; [reflexivity |].
  intros tier err. rewrite check_divisions_app. intros H.
  apply append_cancel_l in H. revert H.
  unfold check_divisions. rewrite E.
  destruct (is_special_tier tier); cbn [negb List.length Nat.eqb];
    [discriminate |].
  destruct (0 <? List.length (invalid_divs (h :: t)))%nat; [| discriminate].
  cbv zeta.
  destruct (1 <? List.length (invalid_divs (h :: t)))%nat;
    cbn [append]; discriminate.
Qed.

Lemma divisions_argument_round_trip_witness :
  split_comma (join "," ["I"; "IV"; EmptyString; "II"])
  = ["I"; "IV"; EmptyString; "II"].
Proof.
  destruct (divisions_argument_round_trip "I") as (_ & _ & _ & H & _).
  apply H; [discriminate |]. repeat constructor.
Defined.

(** The usage text is twelve printed lines, the second of which shows the
    arguments. *)
Lemma usage_quiet (args : list string) :
  exists lines,
    usage args [] = (map EPrint lines, Ok tt)
    /\ List.length lines = 12
    /\ nth_error lines 1 = Some ("Arguments provided: " ++ str_list args).
Proof.
  unfold usage, bind, print, emit. cbn [app].
  eexists (_ :: _ :: _ :: _ :: _ :: _ :: _ :: _ :: _ :: _ :: _ :: _ :: []).
  split; [reflexivity |]. split; reflexivity.
Qed.

Lemma fetched_prints (lines : list string) :
  fetched (map EPrint lines) = [] /\ written (map EPrint lines) = [].
Proof. induction lines; simpl; auto. Qed.

(** X11. The script sends a request exactly for a well-formed command
    line: three arguments after the script name with a tier without
    divisions and a known queue, or five arguments with a tier that is not
    one of those three and values that pass the checks of the function,
    the divisions being the fourth argument cut at its commas. A
    well-formed command line starts with the progress line and the request
    to the host named by the first argument. Any other command line ends
    normally without a request and without a file. *)
Theorem command_line_dispatch :
  forall (api_key now : string) (http_get : string -> res json)
         (fuel : nat) (args : list string),
    let arg i := nth i args EmptyString in
    let o := main api_key now http_get (S fuel) args in
    let well_formed :=
      (List.length args = 4 /\ is_special_tier (arg 3) = true
       /\ In (arg 2) QUEUES)
      \/ (List.length args = 6 /\ is_special_tier (arg 3) = false
          /\ validate (arg 2) (arg 3) (split_comma (arg 4)) (arg 5)
             = EmptyString) in
    (well_formed ->
     exists division more,
       events o
       = EPrint (progress_line (arg 2) (arg 3) division 1)
           :: EGet (request_url api_key (arg 1) (arg 2) (arg 3) division 1)
           :: more)
    /\ (~ well_formed ->
        fetched (events o) = [] /\ written (events o) = []
        /\ exit o = Normal).
Proof.
  intros api_key now http_get fuel args arg o well_formed.
  subst o well_formed arg. unfold main. cbv beta zeta.
  set (region := nth 1 args EmptyString).
  set (queue := nth 2 args EmptyString).
  set (tier := nth 3 args EmptyString).
  set (cut := split_comma (nth 4 args EmptyString)).
  set (get_all := nth 5 args EmptyString).
  destruct (Nat.eqb_spec (List.length args) 4) as [H4 | H4];
    destruct (is_special_tier tier) eqn:Hsp; cbn [andb negb].
  - (* three arguments, a tier without divisions *)
    assert (Hq : validate queue tier [] "True" = EmptyString
                 <-> In queue QUEUES).
    { rewrite validate_ok_iff, py_in_true, (special_tier_in_TIERS _ Hsp).
      intuition. }
    split.
    + intros [(_ & _ & Hin) | (H6 & _)]; [| lia].
      apply Hq in Hin.
      destruct (run_first_request api_key now http_get region queue
                  tier [] "True" fuel Hin) as [more ->].
      eauto.
    + intros Hnot.
      assert (Hv : validate queue tier [] "True" <> EmptyString)
        by (intros H; apply Hnot; left; repeat split; auto; now apply Hq).
      rewrite (run_rejected _ _ _ _ _ _ _ _ _ Hv). auto.
  - (* three arguments, a tier with divisions *)
    rewrite H4. cbn [Nat.eqb andb].
    destruct (usage_quiet args) as (lines & -> & _).
    destruct (fetched_prints lines) as [Hf Hw].
    split; [intros [(_ & H & _) | (H & _)]; [congruence | lia] | auto].
  - (* five arguments, a tier without divisions *)
    rewrite andb_false_r.
    destruct (usage_quiet args) as (lines & -> & _).
    destruct (fetched_prints lines) as [Hf Hw].
    split; [intros [(H & _) | (_ & H & _)]; [lia | congruence] | auto].
  - destruct (Nat.eqb_spec (List.length args) 6) as [H6 | H6];
      cbn [andb].
    + (* five arguments, a tier with divisions *)
      split.
      * intros [(H & _) | (_ & _ & Hval)]; [lia |].
        destruct (run_first_request api_key now http_get region queue
                    tier cut get_all fuel Hval)
          as [more ->].
        eauto.
      * intros Hnot.
        assert (Hv : validate queue tier cut get_all
                     <> EmptyString)
          by (intros H; apply Hnot; right; auto).
        rewrite (run_rejected _ _ _ _ _ _ _ _ _ Hv). auto.
    + destruct (usage_quiet args) as (lines & -> & _).
      destruct (fetched_prints lines) as [Hf Hw].
      split; [intros [(H & _) | (H & _)]; lia | auto].
Qed.

Lemma command_line_dispatch_witness :
  exists division more,
    events (main "KEY" "NOW" one_record_stub 1
              ["league_entries_csv.py"; "euw1"; "RANKED_FLEX_SR"; "SILVER";
               "II,III"; "False"])
    = EPrint (progress_line "RANKED_FLEX_SR" "SILVER" division 1)
        :: EGet (request_url "KEY" "euw1" "RANKED_FLEX_SR" "SILVER"
                   division 1)
        :: more.
Proof.
  destruct (command_line_dispatch "KEY" "NOW" one_record_stub 0
              ["league_entries_csv.py"; "euw1"; "RANKED_FLEX_SR"; "SILVER";
               "II,III"; "False"]) as [H _].
  apply H. right. repeat split.
Defined.

(** ** An empty page with a repeated division *)

(** With the divisions I, II, I and III and a service without entries,
    the loop goes from I to II and from II back to I for ever, and never
    asks for III. *)
Lemma empty_pages_cycle (get_all : string) (fuel : nat) :
  forall (st : locals) (tr : list event),
    more_results st = true ->
    current_division st = "I" \/ current_division st = "II" ->
    ~ In (request_url "KEY" "oc1" "RANKED_SOLO_5x5" "GOLD" "III" 1)
        (fetched tr) ->
    page st = 1 ->
    snd (while_more_results "KEY" empty_stub "oc1" "RANKED_SOLO_5x5" "GOLD"
           ["I"; "II"; "I"; "III"] get_all fuel st tr) = None
    /\ ~ In (request_url "KEY" "oc1" "RANKED_SOLO_5x5" "GOLD" "III" 1)
          (fetched (fst (while_more_results "KEY" empty_stub "oc1"
                           "RANKED_SOLO_5x5" "GOLD"
                           ["I"; "II"; "I"; "III"] get_all fuel st tr))).
Proof.
  induction fuel as [|fuel IH]; intros [more p cur res] tr Hmore Hcur Hno Hp;
    cbn [more_results current_division page] in *; subst more p.
  - split; [reflexivity | exact Hno].
  - destruct Hcur as [-> | ->].
    + erewrite while_next; cycle 1.
      * reflexivity.
      * eapply (body_empty_advance _ _ _ _ _ _ _ _ _ _ "III" "II" 0).
        all: try reflexivity.
        all: cbn [current_division]; discriminate.
      * apply IH; cbn [more_results current_division page]; auto.
        rewrite fetched_app. cbn [fetched].
        intros H. apply in_app_or in H as [H | [H | []]]; [auto |].
        vm_compute in H. discriminate H.
    + erewrite while_next; cycle 1.
      * reflexivity.
      * eapply (body_empty_advance _ _ _ _ _ _ _ _ _ _ "III" "I" 1).
        all: try reflexivity.
        all: cbn [current_division]; discriminate.
      * apply IH; cbn [more_results current_division page]; auto.
        rewrite fetched_app. cbn [fetched].
        intros H. apply in_app_or in H as [H | [H | []]]; [auto |].
        vm_compute in H. discriminate H.
Qed.

(** C5 fails on the code when a division is repeated. With the divisions
    I, II and I, all pages, over a service without entries, the empty first
    page of the first division ends the run: that division is not the last
    one of the list, and yet the loop does not advance to II, which is
    never asked for. With I, II, I and III the loop advances from II back
    to the first division and never reaches III: whatever the fuel, and in
    both page modes, the run is out of fuel and III was not asked for. *)
Theorem empty_response_repeated_division :
  (let o := get_league_entries_as_csv "KEY" "NOW" empty_stub "oc1"
              "RANKED_SOLO_5x5" "GOLD" ["I"; "II"; "I"] "True" 5 in
   validate "RANKED_SOLO_5x5" "GOLD" ["I"; "II"; "I"] "True" = EmptyString
   /\ fetched (events o)
      = [request_url "KEY" "oc1" "RANKED_SOLO_5x5" "GOLD" "I" 1]
   /\ exit o = Normal)
  /\ validate "RANKED_SOLO_5x5" "GOLD" ["I"; "II"; "I"; "III"] "True"
     = EmptyString
  /\ (forall (get_all : string) (fuel : nat),
        get_all = "True" \/ get_all = "False" ->
        let o := get_league_entries_as_csv "KEY" "NOW" empty_stub "oc1"
                   "RANKED_SOLO_5x5" "GOLD" ["I"; "II"; "I"; "III"] get_all
                   fuel in
        exit o = OutOfFuel
        /\ ~ In (request_url "KEY" "oc1" "RANKED_SOLO_5x5" "GOLD" "III" 1)
              (fetched (events o))).
Proof.
  split; [vm_compute; repeat split |]. split; [reflexivity |].
  intros get_all fuel Hmode o. subst o.
  assert (Hval : validate "RANKED_SOLO_5x5" "GOLD" ["I"; "II"; "I"; "III"]
                   get_all = EmptyString)
    by (destruct Hmode as [-> | ->]; reflexivity).
  destruct (empty_pages_cycle get_all fuel
              (initial_locals ["I"; "II"; "I"; "III"]) [] eq_refl
              (or_introl eq_refl) (fun H => H) eq_refl) as [Hnone Hno].
  rewrite run_accepted by exact Hval.
  destruct (while_more_results _ _ _ _ _ _ _ fuel _ _) as [tr [r |]];
    cbn [fst snd] in *; [discriminate |].
  split; [reflexivity | exact Hno].
Qed.
